(** * Session store, manual/chat orchestration and playback of the avatar front end

    A shallow embedding of the client-side state handling found in
    - [frontend/src/stores/useAppStore.ts]   (zustand store, persisted),
    - [frontend/src/components/AvatarDisplay.tsx] (playback),
    - [frontend/src/components/ManualInput.tsx]   (manual orchestrator),
    - [frontend/src/components/ChatInterface.tsx] (conversation orchestrator),
    followed by the properties established about them.

    Conventions.  A JavaScript string is the list of its UTF-16 code units.
    A value of type [string | null] (or an optional property) is an
    [option]; [None] is [null] (or [undefined]).  Event handlers run to
    completion: one handler is one step of the component's state. *)

From stdpp Require Import base option list strings sorting.
From Stdlib Require Import ZArith NArith Ascii.

Local Open Scope Z_scope.

(** ** JavaScript values *)

Module Js.

(** UTF-16 code units. *)
Abbreviation jsstr := (list N).

(** An ASCII literal as a JavaScript string. *)
Definition lit (s : string) : jsstr :=
  map N_of_ascii (String.list_ascii_of_string s).

(** Truthiness of a [string | null | undefined] value: only a non-empty
    string is truthy. *)
Definition truthy (v : option jsstr) : bool :=
  match v with
  | Some (_ :: _) => true
  | _ => false
  end.

(** [v !== null] at type [string | null]. *)
Definition not_null (v : option jsstr) : bool :=
  match v with
  | Some _ => true
  | None => false
  end.

(** [String.prototype.slice] and [Array.prototype.slice] with two integer
    arguments: negative positions count from the end, both positions are
    clamped to [0 .. length], and the result is empty when the start is not
    before the end. *)
Definition slice {A} (l : list A) (start stop : Z) : list A :=
  let len := Z.of_nat (length l) in
  let from := if start <? 0 then Z.max (len + start) 0 else Z.min start len in
  let to := if stop <? 0 then Z.max (len + stop) 0 else Z.min stop len in
  take (Z.to_nat (to - from)) (drop (Z.to_nat from) l).

(** White space and line terminators removed by [String.prototype.trim]. *)
Definition is_white_space (c : N) : bool :=
  ((9 <=? c) && (c <=? 13) || (c =? 32) || (c =? 160) || (c =? 5760)
   || (8192 <=? c) && (c <=? 8202) || (c =? 8232) || (c =? 8233)
   || (c =? 8239) || (c =? 8287) || (c =? 12288) || (c =? 65279))%N.

Fixpoint trimStart (s : jsstr) : jsstr :=
  match s with
  | c :: r => if is_white_space c then trimStart r else s
  | [] => []
  end.

Definition trimEnd (s : jsstr) : jsstr := rev (trimStart (rev s)).

Definition trim (s : jsstr) : jsstr := trimEnd (trimStart s).

(** Truthiness of a string: [!s] is [negb (str_truthy s)]. *)
Definition str_truthy (s : jsstr) : bool :=
  match s with
  | [] => false
  | _ :: _ => true
  end.

(** A text that is not empty and neither begins nor ends with white
    space. *)
Definition trimmed_nonblank (s : jsstr) : bool :=
  match s with
  | [] => false
  | c :: r => negb (is_white_space c) && negb (is_white_space (List.last r c))
  end.

End Js.

Import Js.

(** ** [types/index.ts] *)

Inductive ProcessingStatus := pending | processing | completed | failed.

Inductive ChatMode := Auto | Manual.

Inductive Role := user | assistant.

Module ChatMessage.
Record t := mk {
  role : Role;
  content : jsstr;
  timestamp : jsstr;
  audio_url : option jsstr;
  video_url : option jsstr;
}.
End ChatMessage.

Module ChatRequest.
Record t := mk {
  message : jsstr;
  clone_id : jsstr;
  image_id : jsstr;
  conversation_id : option jsstr;
  generate_video : option bool;
}.
End ChatRequest.

Module ChatResponse.
Record t := mk {
  conversation_id : jsstr;
  message : ChatMessage.t;
  response : ChatMessage.t;
  video_id : option jsstr;
  status : ProcessingStatus;
}.
End ChatResponse.

Module ManualSpeakRequest.
Record t := mk {
  text : jsstr;
  clone_id : jsstr;
  image_id : jsstr;
  preview_only : option bool;
}.
End ManualSpeakRequest.

Module ManualSpeakResponse.
Record t := mk {
  task_id : jsstr;
  text : jsstr;
  clone_id : jsstr;
  image_id : jsstr;
  status : ProcessingStatus;
  audio_url : option jsstr;
  video_url : option jsstr;
}.
End ManualSpeakResponse.

(** ** [stores/useAppStore.ts] *)

Module Store.

(** The data part of [AppState]. *)
Record AppState := mkAppState {
  voiceId : option jsstr;
  cloneId : option jsstr;
  imageId : option jsstr;
  isReady : bool;
  mode : ChatMode;
  conversationId : option jsstr;
  messages : list ChatMessage.t;
  isLoading : bool;
  currentVideoUrl : option jsstr;
  currentAudioUrl : option jsstr;
}.

(** One [key: value] property of an object literal of type
    [Partial<AppState>]; an object literal is the list of its properties. *)
Inductive Property :=
| VoiceId (v : option jsstr)
| CloneId (v : option jsstr)
| ImageId (v : option jsstr)
| IsReady (b : bool)
| Mode (m : ChatMode)
| ConversationId (v : option jsstr)
| Messages (l : list ChatMessage.t)
| IsLoading (b : bool)
| CurrentVideoUrl (v : option jsstr)
| CurrentAudioUrl (v : option jsstr).

Definition key (p : Property) : string :=
  match p with
  | VoiceId _ => "voiceId"
  | CloneId _ => "cloneId"
  | ImageId _ => "imageId"
  | IsReady _ => "isReady"
  | Mode _ => "mode"
  | ConversationId _ => "conversationId"
  | Messages _ => "messages"
  | IsLoading _ => "isLoading"
  | CurrentVideoUrl _ => "currentVideoUrl"
  | CurrentAudioUrl _ => "currentAudioUrl"
  end.

Definition keys (o : list Property) : list string := map key o.

(** Writing one property into a state. *)
Definition put (s : AppState) (p : Property) : AppState :=
  match s with
  | mkAppState v c i r m cv ms l cu ca =>
    match p with
    | VoiceId x => mkAppState x c i r m cv ms l cu ca
    | CloneId x => mkAppState v x i r m cv ms l cu ca
    | ImageId x => mkAppState v c x r m cv ms l cu ca
    | IsReady x => mkAppState v c i x m cv ms l cu ca
    | Mode x => mkAppState v c i r x cv ms l cu ca
    | ConversationId x => mkAppState v c i r m x ms l cu ca
    | Messages x => mkAppState v c i r m cv x l cu ca
    | IsLoading x => mkAppState v c i r m cv ms x cu ca
    | CurrentVideoUrl x => mkAppState v c i r m cv ms l x ca
    | CurrentAudioUrl x => mkAppState v c i r m cv ms l cu x
    end
  end.

(** [Object.assign({}, state, partial)]: a shallow merge, properties taken
    in order. *)
Definition assign (s : AppState) (partial : list Property) : AppState :=
  fold_left put partial s.

(** zustand's [set], given an updater function or (as a constant function)
    an object. *)
Definition set (partial : AppState -> list Property) (s : AppState) : AppState :=
  assign s (partial s).

(** The state the store is created with. *)
Definition initialState : AppState :=
  {| voiceId := None; cloneId := None; imageId := None; isReady := false;
     mode := Auto; conversationId := None; messages := []; isLoading := false;
     currentVideoUrl := None; currentAudioUrl := None |}.

Definition setVoiceId (id : option jsstr) : AppState -> AppState :=
  set (fun state =>
    [ VoiceId id;
      IsReady (not_null id && not_null (cloneId state) && not_null (imageId state)) ]).

Definition setCloneId (id : option jsstr) : AppState -> AppState :=
  set (fun state =>
    [ CloneId id;
      IsReady (not_null (voiceId state) && not_null id && not_null (imageId state)) ]).

Definition setImageId (id : option jsstr) : AppState -> AppState :=
  set (fun state =>
    [ ImageId id;
      IsReady (not_null (voiceId state) && not_null (cloneId state) && not_null id) ]).

Definition setMode (m : ChatMode) : AppState -> AppState :=
  set (fun _ => [ Mode m ]).

Definition addMessage (message : ChatMessage.t) : AppState -> AppState :=
  set (fun state => [ Messages (messages state ++ [message]) ]).

Definition setMessages (ms : list ChatMessage.t) : AppState -> AppState :=
  set (fun _ => [ Messages ms ]).

Definition setIsLoading (loading : bool) : AppState -> AppState :=
  set (fun _ => [ IsLoading loading ]).

Definition setCurrentVideo (url : option jsstr) : AppState -> AppState :=
  set (fun _ => [ CurrentVideoUrl url ]).

Definition setCurrentAudio (url : option jsstr) : AppState -> AppState :=
  set (fun _ => [ CurrentAudioUrl url ]).

Definition reset : AppState -> AppState :=
  set (fun _ =>
    [ VoiceId None; CloneId None; ImageId None; IsReady false; Mode Auto;
      ConversationId None; Messages []; IsLoading false;
      CurrentVideoUrl None; CurrentAudioUrl None ]).

(** The [partialize] option of the [persist] middleware: the object written
    to storage under the name [avatar-storage]. *)
Definition partialize (state : AppState) : list Property :=
  [ VoiceId (voiceId state); CloneId (cloneId state); ImageId (imageId state) ].

(** Hydration by the [persist] middleware with its default [merge],
    [{ ...currentState, ...persistedState }]: the stored object, when there
    is one, is laid over the state the store was created with.  No
    [merge], [onRehydrateStorage] or [migrate] option is given in the
    source, so nothing else runs. *)
Definition rehydrate (storage : option (list Property)) : AppState :=
  match storage with
  | Some persisted => assign initialState persisted
  | None => initialState
  end.

(** The actions of the store, as data, to speak of sequences of them. *)
Inductive Action :=
| SetVoiceId (id : option jsstr)
| SetCloneId (id : option jsstr)
| SetImageId (id : option jsstr)
| SetMode (m : ChatMode)
| AddMessage (m : ChatMessage.t)
| SetMessages (ms : list ChatMessage.t)
| SetIsLoading (b : bool)
| SetCurrentVideo (url : option jsstr)
| SetCurrentAudio (url : option jsstr)
| Reset.

Definition act (s : AppState) (a : Action) : AppState :=
  match a with
  | SetVoiceId id => setVoiceId id s
  | SetCloneId id => setCloneId id s
  | SetImageId id => setImageId id s
  | SetMode m => setMode m s
  | AddMessage m => addMessage m s
  | SetMessages ms => setMessages ms s
  | SetIsLoading b => setIsLoading b s
  | SetCurrentVideo url => setCurrentVideo url s
  | SetCurrentAudio url => setCurrentAudio url s
  | Reset => reset s
  end.

Definition run (s : AppState) (l : list Action) : AppState := fold_left act l s.

(** A page reload: what survives is the projection written to storage. *)
Definition reload (s : AppState) : AppState := rehydrate (Some (partialize s)).

(** The derived flag as the specification defines it. *)
Definition all_ids_set (s : AppState) : bool :=
  not_null (voiceId s) && not_null (cloneId s) && not_null (imageId s).

(** The readiness flag agrees with the three identifiers. *)
Definition ready_consistent (s : AppState) : Prop :=
  isReady s = all_ids_set s.

(** The session after a completed setup: the three setters called with the
    identifiers the uploads returned. *)
Definition setup_done : AppState :=
  run initialState
    [ SetVoiceId (Some (lit "v1")); SetCloneId (Some (lit "c1"));
      SetImageId (Some (lit "i1")) ].

(** The actions that write an identifier or the readiness flag. *)
Definition touches_session (a : Action) : bool :=
  match a with
  | SetVoiceId _ | SetCloneId _ | SetImageId _ | Reset => true
  | _ => false
  end.

(** What happens to the store over its life: actions, and page reloads. *)
Inductive Op :=
| Do (a : Action)
| Reload.

Definition apply (s : AppState) (op : Op) : AppState :=
  match op with
  | Do a => act s a
  | Reload => reload s
  end.

Definition life (s : AppState) (ops : list Op) : AppState := fold_left apply ops s.

End Store.

(** ** [components/AvatarDisplay.tsx]: what is rendered and played *)

Module AvatarDisplay.

(** What fills the avatar container. *)
Inductive Stage :=
| Video (src : jsstr)
| StaticImage (src : jsstr)
| Placeholder.

(** [avatarApi.getPreviewUrl]. *)
Definition getPreviewUrl (imageId : jsstr) : jsstr :=
  lit "/api/v1/avatar/" ++ imageId ++ lit "/preview".

Definition imagePreviewUrl (s : Store.AppState) : option jsstr :=
  if truthy (Store.imageId s) then getPreviewUrl <$> Store.imageId s else None.

(** [currentVideoUrl ? <video> : imagePreviewUrl ? <img> : placeholder]. *)
Definition stage (s : Store.AppState) : Stage :=
  if truthy (Store.currentVideoUrl s)
  then Video (default [] (Store.currentVideoUrl s))
  else if truthy (imagePreviewUrl s)
  then StaticImage (default [] (imagePreviewUrl s))
  else Placeholder.

(** The [src] of the hidden [<audio autoPlay>] element, when it is rendered:
    [currentAudioUrl && !currentVideoUrl]. *)
Definition audio_element (s : Store.AppState) : option jsstr :=
  if truthy (Store.currentAudioUrl s) && negb (truthy (Store.currentVideoUrl s))
  then Store.currentAudioUrl s
  else None.

(** The progress bar and the play/mute controls: [currentVideoUrl && ...]. *)
Definition controls_shown (s : Store.AppState) : bool :=
  truthy (Store.currentVideoUrl s).

(** The video effect calls [load()] and [play()] when
    [currentVideoUrl && videoRef.current]. *)
Definition video_effect_plays (s : Store.AppState) (videoRef : bool) : bool :=
  truthy (Store.currentVideoUrl s) && videoRef.

(** The audio effect calls [load()] and [play()] when
    [currentAudioUrl && audioRef.current && !currentVideoUrl]. *)
Definition audio_effect_plays (s : Store.AppState) (audioRef : bool) : bool :=
  truthy (Store.currentAudioUrl s) && audioRef
  && negb (truthy (Store.currentVideoUrl s)).

(** The medium that is audible after a render: the video if its element is
    there, else the audio if its element is there. *)
Inductive Playing :=
| PlayingVideo (src : jsstr)
| PlayingAudio (src : jsstr)
| Silent.

Definition playing (s : Store.AppState) : Playing :=
  match stage s with
  | Video src => PlayingVideo src
  | _ =>
    match audio_element s with
    | Some src => PlayingAudio src
    | None => Silent
    end
  end.

End AvatarDisplay.

(** ** The part of [useMutation] (@tanstack/react-query) the components rely on

    Every [mutate] call starts a mutation of its own; the callbacks given to
    [useMutation] run for each of them.  The observer follows the mutation
    started last: [isPending] says whether that one is still unsettled. *)

Module Mutation.

Record t (V : Type) := mk {
  next_id : nat;
  current : option nat;
  in_flight : list (nat * V);
}.
Arguments mk {V}.
Arguments next_id {V}.
Arguments current {V}.
Arguments in_flight {V}.

Definition idle {V} : t V := mk 0%nat None [].

Definition mutate {V} (variables : V) (m : t V) : t V :=
  mk (S (next_id m)) (Some (next_id m)) ((next_id m, variables) :: in_flight m).

Definition is_in_flight {V} (id : nat) (m : t V) : bool :=
  existsb (fun e => Nat.eqb (fst e) id) (in_flight m).

Definition settle {V} (id : nat) (m : t V) : t V :=
  mk (next_id m) (current m)
     (List.filter (fun e => negb (Nat.eqb (fst e) id)) (in_flight m)).

Definition isPending {V} (m : t V) : bool :=
  match current m with
  | Some id => is_in_flight id m
  | None => false
  end.

(** How a mutation ends: the promise of [mutationFn] resolves with the
    response, or rejects. *)
Inductive Outcome (A : Type) :=
| Resolved (data : A)
| Rejected.
Arguments Resolved {A}.
Arguments Rejected {A}.

(** At most one mutation is unsettled, and it is the one the observer
    follows. *)
Definition at_most_one {V} (m : t V) : Prop :=
  in_flight m = [] \/
  exists id v, in_flight m = [(id, v)] /\ current m = Some id.

End Mutation.

(** ** [components/ManualInput.tsx] *)

Module ManualInput.

Module TaskHistory.
Record t := mk {
  task_id : jsstr;
  text : jsstr;
  status : ProcessingStatus;
  video_url : option jsstr;
  audio_url : option jsstr;
  timestamp : Z;
}.
End TaskHistory.

(** The variables of the preview mutation, [{ text, cloneId }]. *)
Module PreviewVariables.
Record t := mk {
  text : jsstr;
  cloneId : jsstr;
}.
End PreviewVariables.

(** The response of [manualApi.preview]; it is untyped in the source and
    only its [audio_url] is read. *)
Module PreviewResponse.
Record t := mk {
  audio_url : option jsstr;
}.
End PreviewResponse.

(** The store together with the component's own state: the three
    [useState] cells and the two mutation observers. *)
Record State := mkState {
  store : Store.AppState;
  text : jsstr;
  previewOnly : bool;
  history : list TaskHistory.t;
  speakMutation : Mutation.t ManualSpeakRequest.t;
  previewMutation : Mutation.t PreviewVariables.t;
}.

(** The component as first mounted over a store. *)
Definition mount (st : Store.AppState) : State :=
  mkState st [] false [] Mutation.idle Mutation.idle.

Definition on_store (f : Store.AppState -> Store.AppState) (s : State) : State :=
  mkState (f (store s)) (text s) (previewOnly s) (history s)
          (speakMutation s) (previewMutation s).

Definition setText (v : jsstr) (s : State) : State :=
  mkState (store s) v (previewOnly s) (history s)
          (speakMutation s) (previewMutation s).

Definition setPreviewOnly (b : bool) (s : State) : State :=
  mkState (store s) (text s) b (history s)
          (speakMutation s) (previewMutation s).

Definition setHistory (f : list TaskHistory.t -> list TaskHistory.t) (s : State) : State :=
  mkState (store s) (text s) (previewOnly s) (f (history s))
          (speakMutation s) (previewMutation s).

Definition on_speakMutation
  (f : Mutation.t ManualSpeakRequest.t -> Mutation.t ManualSpeakRequest.t)
  (s : State) : State :=
  mkState (store s) (text s) (previewOnly s) (history s)
          (f (speakMutation s)) (previewMutation s).

Definition on_previewMutation
  (f : Mutation.t PreviewVariables.t -> Mutation.t PreviewVariables.t)
  (s : State) : State :=
  mkState (store s) (text s) (previewOnly s) (history s)
          (speakMutation s) (f (previewMutation s)).

Definition MAX_CHARS : Z := 5000.

Definition charCount (s : State) : nat := length (text s).

(** The [onChange] of the text area. *)
Definition onChange (value : jsstr) : State -> State :=
  setText (slice value 0 MAX_CHARS).

(** *** The callbacks of [speakMutation] *)

Definition speak_onMutate : State -> State :=
  on_store (Store.setIsLoading true).

(** The entry [onSuccess] builds from the response; [now] is [new Date()]. *)
Definition entry (data : ManualSpeakResponse.t) (now : Z) : TaskHistory.t :=
  {| TaskHistory.task_id := ManualSpeakResponse.task_id data;
     TaskHistory.text := ManualSpeakResponse.text data;
     TaskHistory.status := ManualSpeakResponse.status data;
     TaskHistory.video_url := ManualSpeakResponse.video_url data;
     TaskHistory.audio_url := ManualSpeakResponse.audio_url data;
     TaskHistory.timestamp := now |}.

Definition speak_onSuccess (data : ManualSpeakResponse.t) (now : Z) (s : State) : State :=
  let s1 := setHistory (fun prev => entry data now :: slice prev 0 9) s in
  let s2 :=
    if truthy (ManualSpeakResponse.video_url data)
    then on_store (Store.setCurrentVideo (ManualSpeakResponse.video_url data)) s1
    else if truthy (ManualSpeakResponse.audio_url data)
    then on_store (Store.setCurrentAudio (ManualSpeakResponse.audio_url data)) s1
    else s1 in
  setText [] s2.

(** [onError] only writes to the console. *)
Definition speak_onError (s : State) : State := s.

Definition speak_onSettled : State -> State :=
  on_store (Store.setIsLoading false).

(** *** The callback of [previewMutation] *)

Definition preview_onSuccess (data : PreviewResponse.t) : State -> State :=
  on_store (Store.setCurrentAudio (PreviewResponse.audio_url data)).

(** *** Starting and settling the mutations *)

Definition speak_mutate (variables : ManualSpeakRequest.t) (s : State) : State :=
  speak_onMutate (on_speakMutation (Mutation.mutate variables) s).

Definition preview_mutate (variables : PreviewVariables.t) (s : State) : State :=
  on_previewMutation (Mutation.mutate variables) s.

(** The mutation [id] started by [speakMutation] ends: [onSuccess] or
    [onError], then [onSettled], and it is no longer in flight.  Nothing
    happens for an [id] that is not in flight. *)
Definition speak_settled (id : nat) (o : Mutation.Outcome ManualSpeakResponse.t)
  (now : Z) (s : State) : State :=
  if Mutation.is_in_flight id (speakMutation s) then
    let s1 :=
      match o with
      | Mutation.Resolved data => speak_onSuccess data now s
      | Mutation.Rejected => speak_onError s
      end in
    on_speakMutation (Mutation.settle id) (speak_onSettled s1)
  else s.

Definition preview_settled (id : nat) (o : Mutation.Outcome PreviewResponse.t)
  (s : State) : State :=
  if Mutation.is_in_flight id (previewMutation s) then
    let s1 :=
      match o with
      | Mutation.Resolved data => preview_onSuccess data s
      | Mutation.Rejected => s
      end in
    on_previewMutation (Mutation.settle id) s1
  else s.

Section Component.

(** The props of the component. *)
Variables (cloneId imageId : jsstr).

Definition handleSpeak (s : State) : State :=
  if negb (str_truthy (trim (text s))) then s
  else
    speak_mutate
      {| ManualSpeakRequest.text := trim (text s);
         ManualSpeakRequest.clone_id := cloneId;
         ManualSpeakRequest.image_id := imageId;
         ManualSpeakRequest.preview_only := Some (previewOnly s) |} s.

Definition handlePreview (s : State) : State :=
  if negb (str_truthy (trim (text s))) then s
  else
    preview_mutate
      {| PreviewVariables.text := trim (text s);
         PreviewVariables.cloneId := cloneId |} s.

Definition playFromHistory (item : TaskHistory.t) (s : State) : State :=
  if truthy (TaskHistory.video_url item)
  then on_store (Store.setCurrentVideo (TaskHistory.video_url item)) s
  else if truthy (TaskHistory.audio_url item)
  then on_store (Store.setCurrentAudio (TaskHistory.audio_url item)) s
  else s.

(** [speakMutation.isPending || previewMutation.isPending]. *)
Definition isLoading (s : State) : bool :=
  Mutation.isPending (speakMutation s) || Mutation.isPending (previewMutation s).

(** The [disabled] attribute of the text area. *)
Definition textarea_disabled (s : State) : bool := isLoading s.

(** The [disabled] attribute of the preview button and of the speak button:
    [!text.trim() || isLoading]. *)
Definition button_disabled (s : State) : bool :=
  negb (str_truthy (trim (text s))) || isLoading s.

(** What can happen to the mounted component.  A disabled control raises no
    event, so its handler is not run. *)
Inductive Event :=
| Change (value : jsstr)
| CheckPreviewOnly (checked : bool)
| ClickPreview
| ClickSpeak
| ClickHistory (index : nat)
| SpeakSettled (id : nat) (o : Mutation.Outcome ManualSpeakResponse.t) (now : Z)
| PreviewSettled (id : nat) (o : Mutation.Outcome PreviewResponse.t).

Definition step (s : State) (e : Event) : State :=
  match e with
  | Change value => if textarea_disabled s then s else onChange value s
  | CheckPreviewOnly checked => setPreviewOnly checked s
  | ClickPreview => if button_disabled s then s else handlePreview s
  | ClickSpeak => if button_disabled s then s else handleSpeak s
  | ClickHistory index =>
    match history s !! index with
    | Some item => playFromHistory item s
    | None => s
    end
  | SpeakSettled id o now => speak_settled id o now s
  | PreviewSettled id o => preview_settled id o s
  end.

Definition run (s : State) (es : list Event) : State := fold_left step es s.

End Component.

(** The responses of a sequence of speak tasks that completed, with the
    clock reading at each completion, applied in order. *)
Definition complete_all (s : State) (tasks : list (ManualSpeakResponse.t * Z)) : State :=
  fold_left (fun acc t => speak_onSuccess (fst t) (snd t) acc) tasks s.


(** At most one task, speak or preview, is unsettled. *)
Definition single_task (s : State) : Prop :=
  Mutation.at_most_one (speakMutation s) /\
  Mutation.at_most_one (previewMutation s) /\
  (Mutation.in_flight (speakMutation s) = [] \/
   Mutation.in_flight (previewMutation s) = []).


(** A speak request as [handleSpeak] builds it over the props. *)
Definition speak_request_ok (cloneId imageId : jsstr) (r : ManualSpeakRequest.t) : Prop :=
  trimmed_nonblank (ManualSpeakRequest.text r) = true /\
  ManualSpeakRequest.clone_id r = cloneId /\
  ManualSpeakRequest.image_id r = imageId /\
  is_Some (ManualSpeakRequest.preview_only r).

(** A preview request as [handlePreview] builds it over the props. *)
Definition preview_request_ok (cloneId : jsstr) (r : PreviewVariables.t) : Prop :=
  trimmed_nonblank (PreviewVariables.text r) = true /\
  PreviewVariables.cloneId r = cloneId.

(** Every request in flight is well formed. *)
Definition requests_ok (cloneId imageId : jsstr) (s : State) : Prop :=
  Forall (fun e => speak_request_ok cloneId imageId (snd e))
         (Mutation.in_flight (speakMutation s)) /\
  Forall (fun e => preview_request_ok cloneId (snd e))
         (Mutation.in_flight (previewMutation s)).

(** A response that reports the task as failed and carries no media. *)
Definition failed_response : ManualSpeakResponse.t :=
  {| ManualSpeakResponse.task_id := lit "t1";
     ManualSpeakResponse.text := lit "hello";
     ManualSpeakResponse.clone_id := lit "c1";
     ManualSpeakResponse.image_id := lit "i1";
     ManualSpeakResponse.status := failed;
     ManualSpeakResponse.audio_url := None;
     ManualSpeakResponse.video_url := None |}.

(** A component with the text [hello] typed and the speak button clicked
    once: one speak task is in flight. *)
Definition speaking : State :=
  run (lit "c1") (lit "i1") (mount (Store.setMode Manual Store.setup_done))
      [ Change (lit "hello"); ClickSpeak ].

End ManualInput.

(** ** [components/ChatInterface.tsx] *)

Module ChatInterface.

(** The response of [chatApi.sendVoice]; untyped in the source, these are
    the properties that are read. *)
Module VoiceResponse.
Record t := mk {
  conversation_id : option jsstr;
  transcription : option jsstr;
  response : ChatMessage.t;
}.
End VoiceResponse.

Record State := mkState {
  store : Store.AppState;
  input : jsstr;
  conversationId : option jsstr;
  isRecording : bool;
  sendMessageMutation : Mutation.t ChatRequest.t;
}.

Definition mount (st : Store.AppState) : State :=
  mkState st [] None false Mutation.idle.

Definition on_store (f : Store.AppState -> Store.AppState) (s : State) : State :=
  mkState (f (store s)) (input s) (conversationId s) (isRecording s)
          (sendMessageMutation s).

Definition setInput (v : jsstr) (s : State) : State :=
  mkState (store s) v (conversationId s) (isRecording s) (sendMessageMutation s).

Definition setConversationId (v : option jsstr) (s : State) : State :=
  mkState (store s) (input s) v (isRecording s) (sendMessageMutation s).

Definition on_sendMessageMutation
  (f : Mutation.t ChatRequest.t -> Mutation.t ChatRequest.t) (s : State) : State :=
  mkState (store s) (input s) (conversationId s) (isRecording s)
          (f (sendMessageMutation s)).

(** The text of the error turn,
    U+30A8 U+30E9 U+30FC U+304C U+767A U+751F U+3057 U+307E U+3057 U+305F U+3002
    U+3082 U+3046 U+4E00 U+5EA6 U+304A U+8A66 U+3057 U+304F U+3060 U+3055 U+3044
    U+3002 (an error occurred, please try again). *)
Definition error_content : jsstr :=
  [ 0x30A8; 0x30E9; 0x30FC; 0x304C; 0x767A; 0x751F; 0x3057; 0x307E; 0x3057;
    0x305F; 0x3002; 0x3082; 0x3046; 0x4E00; 0x5EA6; 0x304A; 0x8A66; 0x3057;
    0x304F; 0x3060; 0x3055; 0x3044; 0x3002 ]%N.

(** The placeholder of a voice turn without transcription, U+0028 U+97F3
    U+58F0 U+5165 U+529B U+0029. *)
Definition voice_placeholder : jsstr :=
  [ 0x28; 0x97F3; 0x58F0; 0x5165; 0x529B; 0x29 ]%N.

(** The synthetic assistant turn; [now] is [new Date().toISOString()]. *)
Definition error_message (now : jsstr) : ChatMessage.t :=
  {| ChatMessage.role := assistant;
     ChatMessage.content := error_content;
     ChatMessage.timestamp := now;
     ChatMessage.audio_url := None;
     ChatMessage.video_url := None |}.

(** *** The callbacks of [sendMessageMutation] *)

Definition send_onMutate : State -> State :=
  on_store (Store.setIsLoading true).

Definition send_onSuccess (data : ChatResponse.t) (s : State) : State :=
  let s1 := setConversationId (Some (ChatResponse.conversation_id data)) s in
  let s2 := on_store (Store.addMessage (ChatResponse.response data)) s1 in
  if truthy (ChatMessage.video_url (ChatResponse.response data))
  then on_store (Store.setCurrentVideo (ChatMessage.video_url (ChatResponse.response data))) s2
  else if truthy (ChatMessage.audio_url (ChatResponse.response data))
  then on_store (Store.setCurrentAudio (ChatMessage.audio_url (ChatResponse.response data))) s2
  else s2.

Definition send_onError (now : jsstr) : State -> State :=
  on_store (Store.addMessage (error_message now)).

Definition send_onSettled : State -> State :=
  on_store (Store.setIsLoading false).

Definition send_mutate (variables : ChatRequest.t) (s : State) : State :=
  send_onMutate (on_sendMessageMutation (Mutation.mutate variables) s).

Definition send_settled (id : nat) (o : Mutation.Outcome ChatResponse.t)
  (now : jsstr) (s : State) : State :=
  if Mutation.is_in_flight id (sendMessageMutation s) then
    let s1 :=
      match o with
      | Mutation.Resolved data => send_onSuccess data s
      | Mutation.Rejected => send_onError now s
      end in
    on_sendMessageMutation (Mutation.settle id) (send_onSettled s1)
  else s.

(** *** The end of a voice request, inside [mediaRecorder.onstop] *)

Definition voice_resolved (r : VoiceResponse.t) (now : jsstr) (s : State) : State :=
  let s1 := setConversationId (VoiceResponse.conversation_id r) s in
  let s2 :=
    on_store (Store.addMessage
      {| ChatMessage.role := user;
         ChatMessage.content :=
           if truthy (VoiceResponse.transcription r)
           then default [] (VoiceResponse.transcription r)
           else voice_placeholder;
         ChatMessage.timestamp := now;
         ChatMessage.audio_url := None;
         ChatMessage.video_url := None |}) s1 in
  let s3 := on_store (Store.addMessage (VoiceResponse.response r)) s2 in
  let s4 :=
    if truthy (ChatMessage.video_url (VoiceResponse.response r))
    then on_store (Store.setCurrentVideo (ChatMessage.video_url (VoiceResponse.response r))) s3
    else s3 in
  on_store (Store.setIsLoading false) s4.

Definition voice_rejected (now : jsstr) (s : State) : State :=
  on_store (Store.setIsLoading false)
    (on_store (Store.addMessage (error_message now)) s).

(** *** Clearing *)

Definition clearChat (s : State) : State :=
  on_store (Store.setCurrentAudio None)
    (on_store (Store.setCurrentVideo None)
      (setConversationId None
        (on_store (Store.setMessages []) s))).

(** The four calls [clearChat] makes, in order, and the states they lead
    through: each [set] of the store publishes the new store state to its
    subscribers at once. *)
Definition clearChat_writes : list (State -> State) :=
  [ on_store (Store.setMessages []);
    setConversationId None;
    on_store (Store.setCurrentVideo None);
    on_store (Store.setCurrentAudio None) ].

Fixpoint states_through (writes : list (State -> State)) (s : State) : list State :=
  match writes with
  | [] => []
  | w :: rest => w s :: states_through rest (w s)
  end.

Section Component.

Variables (cloneId imageId : jsstr).

(** [now] is [new Date().toISOString()]. *)
Definition handleSend (now : jsstr) (s : State) : State :=
  if negb (str_truthy (trim (input s))) || Store.isLoading (store s) then s
  else
    let userMessage :=
      {| ChatMessage.role := user;
         ChatMessage.content := trim (input s);
         ChatMessage.timestamp := now;
         ChatMessage.audio_url := None;
         ChatMessage.video_url := None |} in
    let s1 := on_store (Store.addMessage userMessage) s in
    let s2 := setInput [] s1 in
    send_mutate
      {| ChatRequest.message := ChatMessage.content userMessage;
         ChatRequest.clone_id := cloneId;
         ChatRequest.image_id := imageId;
         ChatRequest.conversation_id :=
           if truthy (conversationId s) then conversationId s else None;
         ChatRequest.generate_video := Some true |} s2.

(** The [disabled] attribute of the text input: [isLoading || isRecording]. *)
Definition input_disabled (s : State) : bool :=
  Store.isLoading (store s) || isRecording s.

(** The [disabled] attribute of the send button: [!input.trim() || isLoading]. *)
Definition send_disabled (s : State) : bool :=
  negb (str_truthy (trim (input s))) || Store.isLoading (store s).

(** The clear button is rendered when [messages.length > 0]. *)
Definition clear_shown (s : State) : bool :=
  negb (Nat.eqb (length (Store.messages (store s))) 0).

(** Typing, Enter without Shift in the text input, the send and the clear
    buttons, and the end of a send mutation. *)
Inductive Event :=
| ChangeInput (value : jsstr)
| PressEnter (now : jsstr)
| ClickSend (now : jsstr)
| ClickClear
| SendSettled (id : nat) (o : Mutation.Outcome ChatResponse.t) (now : jsstr).

Definition step (s : State) (e : Event) : State :=
  match e with
  | ChangeInput value => if input_disabled s then s else setInput value s
  | PressEnter now => if input_disabled s then s else handleSend now s
  | ClickSend now => if send_disabled s then s else handleSend now s
  | ClickClear => if clear_shown s then clearChat s else s
  | SendSettled id o now => send_settled id o now s
  end.

Definition run (s : State) (es : list Event) : State := fold_left step es s.

End Component.

(** At most one send is unsettled, and the loading flag is up while it is. *)
Definition single_task (s : State) : Prop :=
  Mutation.in_flight (sendMessageMutation s) = [] \/
  exists id v, Mutation.in_flight (sendMessageMutation s) = [(id, v)] /\
               Store.isLoading (store s) = true.

(** The user turn [handleSend] appends for the input of [s]. *)
Definition user_turn (now : jsstr) (s : State) : ChatMessage.t :=
  ChatMessage.mk user (trim (input s)) now None None.

(** The request started last, if it is still in flight with others. *)
Definition newest_request (s : State) : option ChatRequest.t :=
  snd <$> head (Mutation.in_flight (sendMessageMutation s)).

(** A chat request as [handleSend] builds it over the props. *)
Definition chat_request_ok (cloneId imageId : jsstr) (r : ChatRequest.t) : Prop :=
  trimmed_nonblank (ChatRequest.message r) = true /\
  ChatRequest.clone_id r = cloneId /\
  ChatRequest.image_id r = imageId /\
  ChatRequest.generate_video r = Some true /\
  ChatRequest.conversation_id r <> Some [].


(** A conversation with the message [hello] sent and not yet answered. *)
Definition sending : State :=
  run (lit "c1") (lit "i1") (mount Store.setup_done)
      [ ChangeInput (lit "hello"); ClickSend (lit "2024-01-01T00:00:00.000Z") ].

(** An answer with a video. *)
Definition video_answer : ChatResponse.t :=
  ChatResponse.mk (lit "cv1")
    (ChatMessage.mk user (lit "hello") (lit "2024-01-01T00:00:00.000Z") None None)
    (ChatMessage.mk assistant (lit "hi") (lit "2024-01-01T00:00:05.000Z")
       None (Some (lit "/v.mp4")))
    None completed.

(** That conversation once the answer has arrived: two turns in the
    transcript, the video playing. *)
Definition answered : State :=
  send_settled 0 (Mutation.Resolved video_answer) (lit "2024-01-01T00:00:05.000Z")
    sending.

End ChatInterface.

(** ** The page component [Home] and the first step of [UploadPanel] *)

Module UploadPanel.

Inductive Step := voice | clone | image | complete.

(** The step the panel starts at:
    [imageId ? 'complete' : cloneId ? 'image' : voiceId ? 'clone' : 'voice']. *)
Definition initial_step (s : Store.AppState) : Step :=
  if truthy (Store.imageId s) then complete
  else if truthy (Store.cloneId s) then image
  else if truthy (Store.voiceId s) then clone
  else voice.

(** A file handed over by the drop zone. *)
Module File.
Record t := mk {
  name : jsstr;
  type : jsstr;
  size : Z;
}.
End File.

(** The variables of the clone mutation ([VoiceCloneRequest]). *)
Module VoiceCloneRequest.
Record t := mk {
  voice_id : jsstr;
  name : option jsstr;
  description : option jsstr;
}.
End VoiceCloneRequest.

(** A value of type [any], as far as the panel tells values apart: a
    string; a value that is not a string and is falsy ([undefined], [null],
    [false], and the numbers [0] and [NaN]); or any other value, all of them
    truthy ([true], a non-zero number, an array, an object), known by a tag
    only. *)
Inductive Any :=
| AnyString (s : jsstr)
| AnyUndefined
| AnyNull
| AnyFalse
| AnyZero
| AnyOther (tag : nat).

Definition any_truthy (v : Any) : bool :=
  match v with
  | AnyString (_ :: _) => true
  | AnyOther _ => true
  | _ => false
  end.

(** The store together with the panel's own state: the step, the error
    cell ([None] is [null], [Some v] the value handed to [setError]), the
    three mutation observers, and how often the [onComplete] prop has been
    called. *)
Record State := mkState {
  store : Store.AppState;
  currentStep : Step;
  error : option Any;
  voiceUploadMutation : Mutation.t File.t;
  voiceCloneMutation : Mutation.t VoiceCloneRequest.t;
  imageUploadMutation : Mutation.t File.t;
  onComplete_calls : nat;
}.

Definition mount (st : Store.AppState) : State :=
  mkState st (initial_step st) None Mutation.idle Mutation.idle Mutation.idle 0.

Definition on_store (f : Store.AppState -> Store.AppState) (s : State) : State :=
  mkState (f (store s)) (currentStep s) (error s) (voiceUploadMutation s)
          (voiceCloneMutation s) (imageUploadMutation s) (onComplete_calls s).

Definition setCurrentStep (x : Step) (s : State) : State :=
  mkState (store s) x (error s) (voiceUploadMutation s)
          (voiceCloneMutation s) (imageUploadMutation s) (onComplete_calls s).

Definition setError (e : option Any) (s : State) : State :=
  mkState (store s) (currentStep s) e (voiceUploadMutation s)
          (voiceCloneMutation s) (imageUploadMutation s) (onComplete_calls s).

Definition on_voiceUploadMutation
  (f : Mutation.t File.t -> Mutation.t File.t) (s : State) : State :=
  mkState (store s) (currentStep s) (error s) (f (voiceUploadMutation s))
          (voiceCloneMutation s) (imageUploadMutation s) (onComplete_calls s).

Definition on_voiceCloneMutation
  (f : Mutation.t VoiceCloneRequest.t -> Mutation.t VoiceCloneRequest.t)
  (s : State) : State :=
  mkState (store s) (currentStep s) (error s) (voiceUploadMutation s)
          (f (voiceCloneMutation s)) (imageUploadMutation s) (onComplete_calls s).

Definition on_imageUploadMutation
  (f : Mutation.t File.t -> Mutation.t File.t) (s : State) : State :=
  mkState (store s) (currentStep s) (error s) (voiceUploadMutation s)
          (voiceCloneMutation s) (f (imageUploadMutation s)) (onComplete_calls s).

(** A call of the [onComplete] prop. *)
Definition onComplete (s : State) : State :=
  mkState (store s) (currentStep s) (error s) (voiceUploadMutation s)
          (voiceCloneMutation s) (imageUploadMutation s) (S (onComplete_calls s)).

(** [detail || fallback], where [detail] is [err.response?.data?.detail],
    of type [any]: the detail itself when it is truthy, whatever it is. *)
Definition error_text (detail : Any) (fallback : jsstr) : Any :=
  if any_truthy detail then detail else AnyString fallback.


(** *** The callbacks of the three mutations; [voice_id], [clone_id] and
    [image_id] are the properties read from the responses. *)

Definition voiceUpload_onSuccess (voice_id : jsstr) (s : State) : State :=
  setError None (setCurrentStep clone (on_store (Store.setVoiceId (Some voice_id)) s)).

Definition voiceUpload_onError (detail : Any) : State -> State :=
  setError (Some (error_text detail (lit "Voice upload failed"))).

Definition voiceClone_onSuccess (clone_id : jsstr) (s : State) : State :=
  setError None (setCurrentStep image (on_store (Store.setCloneId (Some clone_id)) s)).

Definition voiceClone_onError (detail : Any) : State -> State :=
  setError (Some (error_text detail (lit "Voice cloning failed"))).

Definition imageUpload_onSuccess (image_id : jsstr) (s : State) : State :=
  onComplete
    (setError None
      (setCurrentStep complete (on_store (Store.setImageId (Some image_id)) s))).

Definition imageUpload_onError (detail : Any) : State -> State :=
  setError (Some (error_text detail (lit "Image upload failed"))).

(** *** The handlers *)

Definition onVoiceDrop (acceptedFiles : list File.t) (s : State) : State :=
  match acceptedFiles with
  | f :: _ => on_voiceUploadMutation (Mutation.mutate f) s
  | [] => s
  end.

Definition onImageDrop (acceptedFiles : list File.t) (s : State) : State :=
  match acceptedFiles with
  | f :: _ => on_imageUploadMutation (Mutation.mutate f) s
  | [] => s
  end.

Definition handleCreateClone (s : State) : State :=
  if truthy (Store.voiceId (store s)) then
    on_voiceCloneMutation
      (Mutation.mutate
         {| VoiceCloneRequest.voice_id := default [] (Store.voiceId (store s));
            VoiceCloneRequest.name := Some (lit "My Avatar Voice");
            VoiceCloneRequest.description := None |}) s
  else s.

(** *** The ends of the mutations: the response's identifier, or the
    rejection's [detail]. *)

Definition voiceUpload_settled (id : nat) (o : jsstr + Any) (s : State) : State :=
  if Mutation.is_in_flight id (voiceUploadMutation s) then
    on_voiceUploadMutation (Mutation.settle id)
      match o with
      | inl voice_id => voiceUpload_onSuccess voice_id s
      | inr detail => voiceUpload_onError detail s
      end
  else s.

Definition voiceClone_settled (id : nat) (o : jsstr + Any) (s : State) : State :=
  if Mutation.is_in_flight id (voiceCloneMutation s) then
    on_voiceCloneMutation (Mutation.settle id)
      match o with
      | inl clone_id => voiceClone_onSuccess clone_id s
      | inr detail => voiceClone_onError detail s
      end
  else s.

Definition imageUpload_settled (id : nat) (o : jsstr + Any) (s : State) : State :=
  if Mutation.is_in_flight id (imageUploadMutation s) then
    on_imageUploadMutation (Mutation.settle id)
      match o with
      | inl image_id => imageUpload_onSuccess image_id s
      | inr detail => imageUpload_onError detail s
      end
  else s.

(** What can happen to the mounted panel.  Each drop zone and each button
    is rendered in its own step only; the clone button is disabled while
    the clone mutation is pending.  [Outside a] is an action on the store
    from outside the panel while it stays mounted: the reset button of the
    page header, the late callback of a request another component
    started. *)
Inductive Event :=
| VoiceDrop (acceptedFiles : list File.t)
| ClickCreateClone
| ImageDrop (acceptedFiles : list File.t)
| ClickStart
| VoiceUploadSettled (id : nat) (o : jsstr + Any)
| VoiceCloneSettled (id : nat) (o : jsstr + Any)
| ImageUploadSettled (id : nat) (o : jsstr + Any)
| Outside (a : Store.Action).

Definition step (s : State) (e : Event) : State :=
  match e with
  | VoiceDrop files =>
    match currentStep s with voice => onVoiceDrop files s | _ => s end
  | ClickCreateClone =>
    match currentStep s with
    | clone =>
      if Mutation.isPending (voiceCloneMutation s) then s else handleCreateClone s
    | _ => s
    end
  | ImageDrop files =>
    match currentStep s with image => onImageDrop files s | _ => s end
  | ClickStart =>
    match currentStep s with complete => onComplete s | _ => s end
  | VoiceUploadSettled id o => voiceUpload_settled id o s
  | VoiceCloneSettled id o => voiceClone_settled id o s
  | ImageUploadSettled id o => imageUpload_settled id o s
  | Outside a => on_store (fun st => Store.act st a) s
  end.

Definition run (s : State) (es : list Event) : State := fold_left step es s.

(** The events that leave the session to the panel: all but an outside
    write of an identifier and an outside reset. *)
Definition session_left_alone (e : Event) : bool :=
  match e with
  | Outside a => negb (Store.touches_session a)
  | _ => true
  end.

(** The identifiers the step stands for are in the store, and so are those
    a pending clone or image request was started over. *)
Definition steps_in_order (s : State) : Prop :=
  (currentStep s = voice \/ Store.voiceId (store s) <> None) /\
  (currentStep s = image \/ currentStep s = complete ->
   Store.cloneId (store s) <> None) /\
  (currentStep s = complete -> Store.imageId (store s) <> None) /\
  (Mutation.in_flight (voiceCloneMutation s) <> [] ->
   Store.voiceId (store s) <> None) /\
  (Mutation.in_flight (imageUploadMutation s) <> [] ->
   Store.voiceId (store s) <> None /\ Store.cloneId (store s) <> None) /\
  Store.ready_consistent (store s).

End UploadPanel.

Module Home.

(** [(showSetup || !isReady) && <UploadPanel ... />]. *)
Definition setup_panel_shown (s : Store.AppState) (showSetup : bool) : bool :=
  showSetup || negb (Store.isReady s).

(** [isReady && !showSetup && ...]: the avatar with the chat and manual
    tabs. *)
Definition main_content_shown (s : Store.AppState) (showSetup : bool) : bool :=
  Store.isReady s && negb showSetup.

(** The store and the page's [showSetup] cell, [useState(!isReady)]. *)
Record State := mkState {
  store : Store.AppState;
  showSetup : bool;
}.

Definition mount (st : Store.AppState) : State :=
  mkState st (negb (Store.isReady st)).

Definition handleReset (s : State) : State :=
  mkState (Store.reset (store s)) true.

(** The settings button, rendered when [isReady]:
    [setShowSetup(!showSetup)]. *)
Definition toggleSetup (s : State) : State :=
  mkState (store s) (negb (showSetup s)).

(** The [onComplete] prop given to the upload panel. *)
Definition onComplete (s : State) : State :=
  mkState (store s) false.

(** Which component fills the right-hand side:
    [mode === 'auto' ? <ChatInterface/> : <ManualInput/>]. *)
Inductive Content := ChatContent | ManualContent.

Definition content (s : State) : Content :=
  match Store.mode (store s) with
  | Auto => ChatContent
  | Manual => ManualContent
  end.

End Home.

(** * Properties *)

(** ** The store *)

Section StoreFacts.

Import Store.

Lemma setVoiceId_ready id s : ready_consistent (setVoiceId id s).
Proof. by destruct s. Qed.

Lemma setCloneId_ready id s : ready_consistent (setCloneId id s).
Proof. by destruct s. Qed.

Lemma setImageId_ready id s : ready_consistent (setImageId id s).
Proof. by destruct s. Qed.

Lemma reset_ready s : ready_consistent (reset s).
Proof. by destruct s. Qed.

(** Every action of the store keeps the flag in step with the identifiers;
    the three setters and [reset] establish it whatever the state was. *)
Lemma act_ready_consistent s a :
  ready_consistent s -> ready_consistent (act s a).
Proof.
  intros H. destruct a; simpl;
    auto using setVoiceId_ready, setCloneId_ready, setImageId_ready, reset_ready;
    destruct s; exact H.
Qed.

Lemma run_ready_consistent l s :
  ready_consistent s -> ready_consistent (run s l).
Proof.
  revert s. induction l as [|a l IH]; intros s H; simpl; [done|].
  apply IH. by apply act_ready_consistent.
Qed.

Lemma initial_ready_consistent : ready_consistent initialState.
Proof. reflexivity. Qed.

(** What a reload leaves: the three identifiers over the initial state. *)
Lemma reload_eq s :
  reload s =
  mkAppState (voiceId s) (cloneId s) (imageId s) false Auto None [] false None None.
Proof. reflexivity. Qed.

(** A reload keeps the flag in step exactly when some identifier is
    missing. *)
Lemma reload_ready_consistent_iff s :
  ready_consistent (reload s) <-> all_ids_set s = false.
Proof.
  rewrite reload_eq. unfold ready_consistent, all_ids_set. simpl.
  split; intros H; [by symmetry | by rewrite H].
Qed.

(** C1, evaluated where it fails.  After a completed setup the flag is true
    and agrees with the identifiers; after a reload of that session the
    three identifiers are back from storage, all non-null, and [isReady] is
    false: hydration restores the identifiers and does not recompute the
    flag.  The setup panel then starts at its last step, the one that
    announces a completed setup, while the avatar and the chat and manual
    tabs stay hidden whatever [showSetup] is. *)
Theorem isReady_false_after_reload_of_complete_session :
  isReady setup_done = true /\
  ready_consistent setup_done /\
  voiceId (reload setup_done) = Some (lit "v1") /\
  cloneId (reload setup_done) = Some (lit "c1") /\
  imageId (reload setup_done) = Some (lit "i1") /\
  all_ids_set (reload setup_done) = true /\
  isReady (reload setup_done) = false /\
  ~ ready_consistent (reload setup_done) /\
  UploadPanel.initial_step (reload setup_done) = UploadPanel.complete /\
  (forall showSetup,
     Home.main_content_shown (reload setup_done) showSetup = false /\
     Home.setup_panel_shown (reload setup_done) showSetup = true).
Proof.
  repeat split; try discriminate. by destruct showSetup.
Qed.

(** C8.  The object written to storage has exactly the keys [voiceId],
    [cloneId] and [imageId], holding the state's three identifiers; it is
    the same whatever the readiness flag, mode, conversation id, transcript,
    loading flag and media references are; and a reload brings back those
    three identifiers over the initial state, with an empty transcript, no
    media reference, and (the component being mounted anew) an empty task
    history and no conversation id. *)
Theorem persisted_projection_is_the_three_identifiers (s : AppState) :
  keys (partialize s) = ["voiceId"; "cloneId"; "imageId"]%string /\
  partialize s = [ VoiceId (voiceId s); CloneId (cloneId s); ImageId (imageId s) ] /\
  (forall r m cv ms l cu ca,
     partialize (mkAppState (voiceId s) (cloneId s) (imageId s) r m cv ms l cu ca)
     = partialize s) /\
  reload s =
    mkAppState (voiceId s) (cloneId s) (imageId s) false Auto None [] false None None /\
  ManualInput.history (ManualInput.mount (reload s)) = [] /\
  ChatInterface.conversationId (ChatInterface.mount (reload s)) = None.
Proof.
  repeat split.
Qed.

(** C10.  [reset] takes every state to the initial state: the identifiers
    and the readiness flag are cleared, and so are the transcript, the
    conversation id, the mode (back to [Auto]), the loading flag and both
    media references. *)
Theorem reset_restores_initial_state (s : AppState) :
  reset s = initialState /\
  voiceId (reset s) = None /\ cloneId (reset s) = None /\
  imageId (reset s) = None /\ isReady (reset s) = false /\
  messages (reset s) = [] /\ conversationId (reset s) = None /\
  mode (reset s) = Auto /\ isLoading (reset s) = false /\
  currentVideoUrl (reset s) = None /\ currentAudioUrl (reset s) = None.
Proof. destruct s. repeat split. Qed.

End StoreFacts.

(** ** JavaScript helpers *)

Section JsFacts.

Context {A : Type}.

(** [l.slice(0, n)] keeps the first [n] elements. *)
Lemma slice_from_start (l : list A) (n : Z) :
  0 <= n -> slice l 0 n = take (Z.to_nat n) l.
Proof.
  intros Hn. unfold slice. simpl.
  destruct (Z.ltb_spec n 0) as [?|_]; [lia|].
  rewrite (Z.min_l 0) by lia. rewrite Z.sub_0_r. simpl.
  destruct (Z.le_ge_cases n (Z.of_nat (length l))) as [Hle|Hge].
  - by rewrite Z.min_l.
  - rewrite Z.min_r by lia. rewrite Nat2Z.id.
    rewrite (take_ge l (Z.to_nat n)) by lia. by apply take_ge.
Qed.

(** Cutting the tail of a list to nine elements and then the whole to ten
    is cutting the whole to ten. *)
Lemma take_10_cons_take_9 (front : list A) (x : A) (l : list A) :
  take 10 (front ++ x :: take 9 l) = take 10 (front ++ x :: l).
Proof.
  rewrite !take_app. f_equal.
  destruct (10 - length front)%nat as [|k] eqn:E; [done|].
  simpl. f_equal. rewrite take_take. f_equal. lia.
Qed.

End JsFacts.

(** ** The manual orchestrator: text buffer, history, preview *)

Section ManualFacts.

Import ManualInput.

Variables (cloneId imageId : jsstr).

Lemma history_speak_onSuccess data now s :
  history (speak_onSuccess data now s) = entry data now :: take 9 (history s).
Proof.
  unfold speak_onSuccess.
  destruct (truthy (ManualSpeakResponse.video_url data));
    [|destruct (truthy (ManualSpeakResponse.audio_url data))];
    simpl; by rewrite slice_from_start.
Qed.

Lemma history_complete_all tasks s :
  (length (history s) <= 10)%nat ->
  history (complete_all s tasks)
  = take 10 (rev (map (fun t => entry (fst t) (snd t)) tasks) ++ history s).
Proof.
  revert s. induction tasks as [|t tasks IH]; intros s Hs.
  - simpl. by rewrite take_ge.
  - change (complete_all s (t :: tasks))
      with (complete_all (speak_onSuccess (fst t) (snd t) s) tasks).
    rewrite IH, history_speak_onSuccess.
    + rewrite take_10_cons_take_9. simpl. by rewrite <- app_assoc.
    + rewrite history_speak_onSuccess. simpl.
      pose proof (firstn_le_length 9 (history s)). lia.
Qed.

(** C5.  Starting from the mounted component, after any sequence of
    completed speak tasks the history is the ten most recent entries, the
    most recent first: the reversed sequence of entries cut to ten.  It has
    at most ten entries, the task completed last is at its head, and each
    completion puts its entry before the first nine of the history it
    found, so that a tenth older entry is dropped. *)
Theorem task_history_bounded_newest_first
  (st : Store.AppState) (tasks : list (ManualSpeakResponse.t * Z)) :
  history (complete_all (mount st) tasks)
  = take 10 (rev (map (fun t => entry (fst t) (snd t)) tasks)) /\
  (length (history (complete_all (mount st) tasks)) <= 10)%nat /\
  (forall t,
     head (history (complete_all (mount st) (tasks ++ [t])))
     = Some (entry (fst t) (snd t))) /\
  (forall data now s,
     history (speak_onSuccess data now s) = entry data now :: take 9 (history s)).
Proof.
  assert (E : forall l, history (complete_all (mount st) l)
              = take 10 (rev (map (fun t => entry (fst t) (snd t)) l))).
  { intros l. rewrite history_complete_all by (simpl; lia).
    simpl. by rewrite app_nil_r. }
  split; [apply E|]. split; [rewrite E; apply firstn_le_length|].
  split; [|apply history_speak_onSuccess].
  intros t. rewrite E, map_app, rev_app_distr. reflexivity.
Qed.

Lemma history_speak_settled id o now s :
  history (speak_settled id o now s)
  = if Mutation.is_in_flight id (speakMutation s)
    then match o with
         | Mutation.Resolved data => entry data now :: take 9 (history s)
         | Mutation.Rejected => history s
         end
    else history s.
Proof.
  unfold speak_settled.
  destruct (Mutation.is_in_flight id (speakMutation s)); [|done].
  destruct o as [data|]; [|done].
  rewrite <- history_speak_onSuccess. reflexivity.
Qed.

Lemma StronglySorted_rev_flip {A} (R : relation A) (l : list A) :
  StronglySorted R l -> StronglySorted (flip R) (rev l).
Proof.
  induction 1 as [|a l Hl IH Ha]; simpl; [constructor|].
  apply StronglySorted_app_2; [|done|repeat constructor].
  intros x1 x2 H1 H2. apply list_elem_of_singleton in H2 as ->.
  apply list_elem_of_In, in_rev in H1. unfold flip.
  rewrite List.Forall_forall in Ha. by apply Ha.
Qed.

(** With a clock that does not run backwards, the history is ordered by
    time of completion, the latest first. *)
Lemma task_history_timestamps_descend
  (st : Store.AppState) (tasks : list (ManualSpeakResponse.t * Z)) :
  StronglySorted Z.le (map snd tasks) ->
  StronglySorted (flip Z.le)
    (map TaskHistory.timestamp (history (complete_all (mount st) tasks))).
Proof.
  intros H. rewrite history_complete_all by (simpl; lia).
  simpl. rewrite app_nil_r.
  apply StronglySorted_rev_flip in H.
  assert (E : rev (map snd tasks)
              = map TaskHistory.timestamp
                  (rev (map (fun t => entry (fst t) (snd t)) tasks))).
  { rewrite <- !map_rev, map_map. reflexivity. }
  rewrite E in H.
  rewrite <- (take_drop 10 (rev (map (fun t => entry (fst t) (snd t)) tasks))) in H.
  rewrite map_app in H. by apply StronglySorted_app_1_l in H.
Qed.

(** Whatever happens to the component, the history stays within ten
    entries. *)
Lemma step_history_bounded s e :
  (length (history s) <= 10)%nat ->
  (length (history (step cloneId imageId s e)) <= 10)%nat.
Proof.
  intros H. destruct e as [v|b| | |i|id o now|id o]; simpl.
  - by destruct (textarea_disabled s).
  - done.
  - destruct (button_disabled s); [done|]. unfold handlePreview.
    by destruct (negb _).
  - destruct (button_disabled s); [done|]. unfold handleSpeak.
    by destruct (negb _).
  - destruct (history s !! i) as [item|]; [|done]. unfold playFromHistory.
    destruct (truthy _); [done|]. by destruct (truthy _).
  - rewrite history_speak_settled.
    destruct (Mutation.is_in_flight id (speakMutation s)); [|done].
    destruct o as [data|]; simpl; [|done].
    pose proof (firstn_le_length 9 (history s)). lia.
  - unfold preview_settled.
    destruct (Mutation.is_in_flight id (previewMutation s)); [|done].
    by destruct o.
Qed.

Lemma run_history_bounded es st :
  (length (history (run cloneId imageId (mount st) es)) <= 10)%nat.
Proof.
  unfold run.
  assert (H : (length (history (mount st)) <= 10)%nat) by (simpl; lia).
  revert H. generalize (mount st). induction es as [|e es IH]; intros s H.
  - done.
  - simpl. apply IH. by apply step_history_bounded.
Qed.

(** C7.  Whatever is entered, the stored text is its first 5000 code units:
    never longer than 5000, equal to the input when that is short enough,
    and unchanged by anything that follows the 5000th code unit.  The rest
    of the state is as it was. *)
Theorem manual_text_truncated_at_cap (value : jsstr) (s : State) :
  text (onChange value s) = take 5000 value /\
  (length (text (onChange value s)) <= 5000)%nat /\
  length (text (onChange value s)) = Nat.min 5000 (length value) /\
  ((length value <= 5000)%nat -> text (onChange value s) = value) /\
  (forall extra,
     (5000 <= length value)%nat ->
     text (onChange (value ++ extra) s) = text (onChange value s)) /\
  store (onChange value s) = store s /\
  history (onChange value s) = history s.
Proof.
  assert (E : forall v, text (onChange v s) = take 5000 v).
  { intros v. unfold onChange. simpl. by rewrite slice_from_start. }
  rewrite !E. repeat split.
  - apply firstn_le_length.
  - apply length_take.
  - intros H. by apply take_ge.
  - intros extra H. rewrite E. by apply take_app_le.
Qed.

(** C9.  A successful preview stores the returned audio URL as the current
    audio reference and leaves the current video reference, the history and
    the text as they were; so does the whole step that settles the preview
    mutation. *)
Theorem preview_success_sets_audio_only (data : PreviewResponse.t) (s : State) :
  Store.currentAudioUrl (store (preview_onSuccess data s))
  = PreviewResponse.audio_url data /\
  Store.currentVideoUrl (store (preview_onSuccess data s))
  = Store.currentVideoUrl (store s) /\
  history (preview_onSuccess data s) = history s /\
  text (preview_onSuccess data s) = text s /\
  (forall id,
     let s' := preview_settled id (Mutation.Resolved data) s in
     Store.currentAudioUrl (store s')
     = (if Mutation.is_in_flight id (previewMutation s)
        then PreviewResponse.audio_url data
        else Store.currentAudioUrl (store s)) /\
     Store.currentVideoUrl (store s') = Store.currentVideoUrl (store s) /\
     history s' = history s /\
     text s' = text s).
Proof.
  destruct s as [st tx po hs sm pm]. destruct st.
  repeat split; simpl; unfold preview_settled; simpl;
    by destruct (Mutation.is_in_flight id pm).
Qed.

End ManualFacts.

(** ** The mutation observer *)

Section MutationFacts.

Import Mutation.

Context {V : Type}.

Lemma at_most_one_idle : at_most_one (@idle V).
Proof. by left. Qed.

Lemma isPending_nothing_in_flight (m : t V) :
  in_flight m = [] -> isPending m = false.
Proof.
  intros H. unfold isPending, is_in_flight. rewrite H. by destruct (current m).
Qed.




Lemma in_flight_settle (id : nat) (m : t V) :
  at_most_one m -> is_in_flight id m = true -> in_flight (settle id m) = [].
Proof.
  intros [H|(id' & v & H & _)] Hf; unfold is_in_flight in Hf; rewrite H in Hf.
  - done.
  - simpl in Hf. rewrite orb_false_r in Hf.
    unfold settle. simpl. rewrite H. simpl. by rewrite Hf.
Qed.

Lemma is_in_flight_settle (id : nat) (m : t V) :
  is_in_flight id (settle id m) = false.
Proof.
  unfold is_in_flight, settle. simpl.
  induction (in_flight m) as [|[i v] l IH]; [done|].
  simpl. destruct (Nat.eqb i id) eqn:E; simpl; [done|]. by rewrite E.
Qed.

End MutationFacts.

(** ** One task at a time: the manual orchestrator *)

Section ManualTaskFacts.

Import ManualInput.

Variables (cloneId imageId : jsstr).








End ManualTaskFacts.

(** ** One task at a time: the conversation orchestrator *)

Section ChatTaskFacts.

Import ChatInterface.

Variables (cloneId imageId : jsstr).



Lemma handleSend_single_task now s :
  single_task s -> single_task (handleSend cloneId imageId now s).
Proof.
  intros H. unfold handleSend.
  destruct (negb (str_truthy (trim (input s)))); simpl; [done|].
  destruct (Store.isLoading (store s)) eqn:El; [done|].
  destruct H as [H|(id & v & _ & H)]; [|congruence].
  right. destruct s as [st inp cv rec m]. destruct st.
  simpl in *. rewrite H. eauto.
Qed.

Lemma chat_step_single_task s e :
  single_task s -> single_task (step cloneId imageId s e).
Proof.
  intros H. destruct e as [v|now|now| |id o now]; simpl.
  - by destruct (input_disabled s).
  - destruct (input_disabled s); [done|]. by apply handleSend_single_task.
  - destruct (send_disabled s); [done|]. by apply handleSend_single_task.
  - destruct (clear_shown s); [|done].
    destruct s as [st inp cv rec m]. by destruct st.
  - unfold send_settled.
    destruct (Mutation.is_in_flight id (sendMessageMutation s)) eqn:Ef; [|done].
    left. destruct H as [H|(i & v & H & _)];
      unfold Mutation.is_in_flight in Ef; rewrite H in Ef; [done|].
    simpl in Ef. rewrite orb_false_r in Ef.
    assert (E : Mutation.in_flight (Mutation.settle id (sendMessageMutation s)) = []).
    { unfold Mutation.settle. simpl. rewrite H. simpl. by rewrite Ef. }
    destruct o as [data|]; [unfold send_onSuccess; repeat destruct (truthy _)|];
      exact E.
Qed.

Lemma chat_run_single_task es s :
  single_task s -> single_task (run cloneId imageId s es).
Proof.
  unfold run. revert s. induction es as [|e es IH]; intros s H; simpl; [done|].
  apply IH. by apply chat_step_single_task.
Qed.

End ChatTaskFacts.

(** ** A second submission while a task is active *)

Section SecondSubmission.

Variables (cloneId imageId : jsstr).


(** The loading flag that [handleSend] tests is the store's, and the store
    is shared: once anything else has cleared it (the end of a manual speak
    task or of a voice request, started elsewhere), [handleSend] takes a
    second send while the first is still in flight. *)
Lemma handleSend_accepts_once_the_flag_is_cleared_elsewhere :
  let cleared :=
    ChatInterface.setInput (lit "again")
      (ChatInterface.on_store (Store.setIsLoading false) ChatInterface.sending) in
  length (Mutation.in_flight
            (ChatInterface.sendMessageMutation ChatInterface.sending)) = 1%nat /\
  length (Mutation.in_flight
            (ChatInterface.sendMessageMutation
               (ChatInterface.handleSend (lit "c1") (lit "i1") (lit "later") cleared)))
  = 2%nat.
Proof. split; reflexivity. Qed.


End SecondSubmission.


(** ** Failed tasks *)

Section Failures.

(** C3, as stated, fails in manual mode.  The speak task in flight fails:
    afterwards the history is still empty, so no task entry records the
    failure; the transcript, the text and the media references are as
    before.  Only the loading flag and the pending state are cleared. *)
Lemma failed_speak_leaves_no_history_entry :
  Mutation.is_in_flight 0 (ManualInput.speakMutation ManualInput.speaking) = true /\
  ManualInput.history
    (ManualInput.speak_settled 0 Mutation.Rejected 0 ManualInput.speaking) = [] /\
  ~ (exists item,
       In item (ManualInput.history
         (ManualInput.speak_settled 0 Mutation.Rejected 0 ManualInput.speaking))) /\
  Store.messages (ManualInput.store
    (ManualInput.speak_settled 0 Mutation.Rejected 0 ManualInput.speaking)) = [] /\
  ManualInput.store
    (ManualInput.speak_settled 0 Mutation.Rejected 0 ManualInput.speaking)
  = Store.setIsLoading false (ManualInput.store ManualInput.speaking).
Proof.
  repeat split. intros [item H]. exact H.
Qed.

(** C3, amended.  A send in flight that fails appends the synthetic
    assistant turn to the transcript and clears the loading flag; the send
    is no longer in flight, and the send button is enabled again for a
    non-blank input.  A speak task in flight that fails changes neither the
    history, nor the text, nor the store apart from the loading flag, which
    is cleared; the task is no longer in flight, and when it was the only
    one the buttons are enabled again for a non-blank text.  A speak task
    whose response arrives without a video and without an audio URL (as one
    with status [failed] does) is recorded at the head of the history as an
    entry without media, which changes nothing when it is selected; the
    media references stay as they were and the loading flag is cleared. *)
Theorem failed_task_clears_the_active_slot
  (id : nat) (now_iso : jsstr) (now : Z) (data : ManualSpeakResponse.t)
  (c : ChatInterface.State) (m : ManualInput.State) :
  (Mutation.is_in_flight id (ChatInterface.sendMessageMutation c) = true ->
   let c' := ChatInterface.send_settled id Mutation.Rejected now_iso c in
   Store.messages (ChatInterface.store c')
   = Store.messages (ChatInterface.store c) ++ [ChatInterface.error_message now_iso] /\
   Store.isLoading (ChatInterface.store c') = false /\
   Mutation.is_in_flight id (ChatInterface.sendMessageMutation c') = false /\
   ChatInterface.send_disabled c'
   = negb (str_truthy (trim (ChatInterface.input c)))) /\
  (Mutation.is_in_flight id (ManualInput.speakMutation m) = true ->
   let m' := ManualInput.speak_settled id Mutation.Rejected now m in
   ManualInput.history m' = ManualInput.history m /\
   ManualInput.text m' = ManualInput.text m /\
   ManualInput.store m' = Store.setIsLoading false (ManualInput.store m) /\
   Store.messages (ManualInput.store m') = Store.messages (ManualInput.store m) /\
   Store.currentVideoUrl (ManualInput.store m')
   = Store.currentVideoUrl (ManualInput.store m) /\
   Store.currentAudioUrl (ManualInput.store m')
   = Store.currentAudioUrl (ManualInput.store m) /\
   Store.isLoading (ManualInput.store m') = false /\
   Mutation.is_in_flight id (ManualInput.speakMutation m') = false /\
   (ManualInput.single_task m ->
    ManualInput.button_disabled m'
    = negb (str_truthy (trim (ManualInput.text m))))) /\
  (Mutation.is_in_flight id (ManualInput.speakMutation m) = true ->
   ManualSpeakResponse.video_url data = None ->
   ManualSpeakResponse.audio_url data = None ->
   let m' := ManualInput.speak_settled id (Mutation.Resolved data) now m in
   ManualInput.history m'
   = ManualInput.entry data now :: take 9 (ManualInput.history m) /\
   ManualInput.TaskHistory.video_url (ManualInput.entry data now) = None /\
   ManualInput.TaskHistory.audio_url (ManualInput.entry data now) = None /\
   ManualInput.TaskHistory.status (ManualInput.entry data now)
   = ManualSpeakResponse.status data /\
   ManualInput.playFromHistory (ManualInput.entry data now) m' = m' /\
   ManualInput.store m' = Store.setIsLoading false (ManualInput.store m) /\
   Mutation.is_in_flight id (ManualInput.speakMutation m') = false).
Proof.
  split; [|split].
  - intros Hf c'. subst c'. unfold ChatInterface.send_settled. rewrite Hf.
    destruct c as [st inp cv rec sm]. destruct st.
    unfold ChatInterface.send_disabled. simpl.
    repeat split; [apply is_in_flight_settle | by rewrite orb_false_r].
  - intros Hf m'. subst m'. unfold ManualInput.speak_settled. rewrite Hf.
    destruct m as [st tx po hs sm pm]. destruct st. simpl in Hf. simpl.
    repeat split; [apply is_in_flight_settle|].
    intros (Hs & Hp & Hd). simpl in Hs, Hp, Hd.
    unfold ManualInput.button_disabled, ManualInput.isLoading. simpl.
    rewrite (isPending_nothing_in_flight (Mutation.settle id sm))
      by by apply in_flight_settle.
    rewrite (isPending_nothing_in_flight pm); [by rewrite orb_false_r|].
    destruct Hd as [Hd|Hd]; [|done].
    unfold Mutation.is_in_flight in Hf. by rewrite Hd in Hf.
  - intros Hf Hv Ha m'. subst m'.
    split; [|split; [|split; [|split; [|split; [|split]]]]].
    + rewrite history_speak_settled. by rewrite Hf.
    + exact Hv.
    + exact Ha.
    + reflexivity.
    + unfold ManualInput.playFromHistory. simpl. by rewrite Hv, Ha.
    + unfold ManualInput.speak_settled, ManualInput.speak_onSuccess.
      by rewrite Hf, Hv, Ha.
    + unfold ManualInput.speak_settled, ManualInput.speak_onSuccess.
      rewrite Hf, Hv, Ha. apply is_in_flight_settle.
Qed.

(** A voice request that fails ends as a failed send does. *)
Lemma voice_rejected_appends_error_turn (now : jsstr) (c : ChatInterface.State) :
  Store.messages (ChatInterface.store (ChatInterface.voice_rejected now c))
  = Store.messages (ChatInterface.store c) ++ [ChatInterface.error_message now] /\
  Store.isLoading (ChatInterface.store (ChatInterface.voice_rejected now c)) = false.
Proof. destruct c as [st inp cv rec sm]. by destruct st. Qed.

End Failures.

Lemma failed_task_witness :
  Mutation.is_in_flight 0 (ChatInterface.sendMessageMutation ChatInterface.sending)
    = true /\
  Mutation.is_in_flight 0 (ManualInput.speakMutation ManualInput.speaking) = true /\
  ManualInput.single_task ManualInput.speaking /\
  Store.messages (ChatInterface.store
    (ChatInterface.send_settled 0 Mutation.Rejected (lit "later") ChatInterface.sending))
  = Store.messages (ChatInterface.store ChatInterface.sending)
    ++ [ChatInterface.error_message (lit "later")] /\
  ManualInput.history
    (ManualInput.speak_settled 0 Mutation.Rejected 7 ManualInput.speaking)
  = ManualInput.history ManualInput.speaking /\
  ManualInput.button_disabled
    (ManualInput.speak_settled 0 Mutation.Rejected 7 ManualInput.speaking)
  = negb (str_truthy (trim (ManualInput.text ManualInput.speaking))) /\
  ManualInput.history
    (ManualInput.speak_settled 0 (Mutation.Resolved ManualInput.failed_response) 7
       ManualInput.speaking)
  = ManualInput.entry ManualInput.failed_response 7
    :: take 9 (ManualInput.history ManualInput.speaking).
Proof.
  destruct (failed_task_clears_the_active_slot 0 (lit "later") 7
              ManualInput.failed_response
              ChatInterface.sending ManualInput.speaking) as (Hc & Hm & Hr).
  assert (H1 : Mutation.is_in_flight 0
                 (ChatInterface.sendMessageMutation ChatInterface.sending) = true)
    by reflexivity.
  assert (H2 : Mutation.is_in_flight 0
                 (ManualInput.speakMutation ManualInput.speaking) = true)
    by reflexivity.
  assert (H3 : ManualInput.single_task ManualInput.speaking).
  { split; [|split].
    - right. exists 0%nat. eexists. split; reflexivity.
    - left. reflexivity.
    - right. reflexivity. }
  split; [exact H1|]. split; [exact H2|]. split; [exact H3|].
  split; [exact (proj1 (Hc H1))|].
  destruct (Hm H2) as (Hh & _ & _ & _ & _ & _ & _ & _ & Hb).
  split; [exact Hh|]. split; [exact (Hb H3)|].
  exact (proj1 (Hr H2 eq_refl eq_refl)).
Defined.

(** ** Playback: video before audio *)

Section Playback.

Import AvatarDisplay.

(** With a video reference set, the audio element is not rendered and the
    audio effect does not start playback. *)
Lemma video_set_silences_audio (st : Store.AppState) :
  truthy (Store.currentVideoUrl st) = true ->
  audio_element st = None /\
  (forall audioRef, audio_effect_plays st audioRef = false) /\
  stage st = Video (default [] (Store.currentVideoUrl st)) /\
  playing st = PlayingVideo (default [] (Store.currentVideoUrl st)).
Proof.
  intros H. unfold audio_element, audio_effect_plays, playing, stage.
  rewrite H. simpl. repeat split.
  - by rewrite andb_false_r.
  - intros r. by rewrite andb_false_r.
Qed.

(** The three places that apply a result to the playback slot other than
    the speak callback do as it does: the video URL when there is one. *)
Lemma send_onSuccess_prefers_video (data : ChatResponse.t) (s : ChatInterface.State) :
  truthy (ChatMessage.video_url (ChatResponse.response data)) = true ->
  Store.currentVideoUrl (ChatInterface.store (ChatInterface.send_onSuccess data s))
  = ChatMessage.video_url (ChatResponse.response data) /\
  Store.currentAudioUrl (ChatInterface.store (ChatInterface.send_onSuccess data s))
  = Store.currentAudioUrl (ChatInterface.store s).
Proof.
  intros H. unfold ChatInterface.send_onSuccess. rewrite H.
  destruct s as [st inp cv rec sm]. by destruct st.
Qed.

Lemma voice_resolved_applies_video (r : ChatInterface.VoiceResponse.t)
  (now : jsstr) (s : ChatInterface.State) :
  truthy (ChatMessage.video_url (ChatInterface.VoiceResponse.response r)) = true ->
  Store.currentVideoUrl (ChatInterface.store (ChatInterface.voice_resolved r now s))
  = ChatMessage.video_url (ChatInterface.VoiceResponse.response r) /\
  Store.currentAudioUrl (ChatInterface.store (ChatInterface.voice_resolved r now s))
  = Store.currentAudioUrl (ChatInterface.store s).
Proof.
  intros H. unfold ChatInterface.voice_resolved. rewrite H.
  destruct s as [st inp cv rec sm]. by destruct st.
Qed.

Lemma playFromHistory_prefers_video (item : ManualInput.TaskHistory.t)
  (s : ManualInput.State) :
  truthy (ManualInput.TaskHistory.video_url item) = true ->
  Store.currentVideoUrl (ManualInput.store (ManualInput.playFromHistory item s))
  = ManualInput.TaskHistory.video_url item /\
  Store.currentAudioUrl (ManualInput.store (ManualInput.playFromHistory item s))
  = Store.currentAudioUrl (ManualInput.store s).
Proof.
  intros H. unfold ManualInput.playFromHistory. rewrite H.
  destruct s as [st tx po hs sm pm]. by destruct st.
Qed.

(** C4.  While a video reference is set (a non-empty URL), the audio
    element is not rendered, the audio effect starts no playback whatever
    the audio reference is, and the video is what is shown and played;
    conversely an audio element that is rendered, or an audio effect that
    plays, means that no video reference is set.  A completed speak result
    that carries a video URL (and so one that carries both a video and an
    audio URL) has its video URL stored as the current video reference; the
    audio reference is not written, and the video is what plays next. *)
Theorem video_takes_precedence_over_audio
  (st : Store.AppState) (data : ManualSpeakResponse.t) (now : Z)
  (s : ManualInput.State) :
  (truthy (Store.currentVideoUrl st) = true ->
     audio_element st = None /\
     (forall audioRef, audio_effect_plays st audioRef = false) /\
     stage st = Video (default [] (Store.currentVideoUrl st)) /\
     playing st = PlayingVideo (default [] (Store.currentVideoUrl st))) /\
  (forall src, audio_element st = Some src ->
     truthy (Store.currentVideoUrl st) = false) /\
  (forall audioRef, audio_effect_plays st audioRef = true ->
     truthy (Store.currentVideoUrl st) = false) /\
  (truthy (ManualSpeakResponse.video_url data) = true ->
   truthy (ManualSpeakResponse.audio_url data) = true ->
     let s' := ManualInput.speak_onSuccess data now s in
     Store.currentVideoUrl (ManualInput.store s')
     = ManualSpeakResponse.video_url data /\
     Store.currentAudioUrl (ManualInput.store s')
     = Store.currentAudioUrl (ManualInput.store s) /\
     audio_element (ManualInput.store s') = None /\
     playing (ManualInput.store s')
     = PlayingVideo (default [] (ManualSpeakResponse.video_url data))).
Proof.
  split; [apply video_set_silences_audio|].
  split; [|split].
  - intros src H. destruct (truthy (Store.currentVideoUrl st)) eqn:E; [|done].
    apply video_set_silences_audio in E as [E _]. congruence.
  - intros r H. destruct (truthy (Store.currentVideoUrl st)) eqn:E; [|done].
    apply video_set_silences_audio in E as (_ & E & _). congruence.
  - intros Hv _ s'.
    assert (E : Store.currentVideoUrl (ManualInput.store s')
                = ManualSpeakResponse.video_url data
                /\ Store.currentAudioUrl (ManualInput.store s')
                   = Store.currentAudioUrl (ManualInput.store s)).
    { subst s'. unfold ManualInput.speak_onSuccess. rewrite Hv.
      destruct s as [st0 tx po hs sm pm]. by destruct st0. }
    destruct E as [E1 E2]. split; [done|]. split; [done|].
    assert (Hs : truthy (Store.currentVideoUrl (ManualInput.store s')) = true)
      by by rewrite E1.
    apply video_set_silences_audio in Hs as (Ha & _ & _ & Hp).
    split; [done|]. by rewrite Hp, E1.
Qed.

End Playback.

(** A store that holds both references, and a result that carries both. *)
Lemma video_takes_precedence_witness :
  let st :=
    Store.setCurrentAudio (Some (lit "/a.mp3"))
      (Store.setCurrentVideo (Some (lit "/v.mp4")) Store.setup_done) in
  let data :=
    ManualSpeakResponse.mk (lit "t1") (lit "hello") (lit "c1") (lit "i1")
      completed (Some (lit "/a2.mp3")) (Some (lit "/v2.mp4")) in
  truthy (Store.currentVideoUrl st) = true /\
  truthy (ManualSpeakResponse.video_url data) = true /\
  truthy (ManualSpeakResponse.audio_url data) = true /\
  AvatarDisplay.audio_element st = None /\
  Store.currentVideoUrl
    (ManualInput.store (ManualInput.speak_onSuccess data 7 ManualInput.speaking))
  = Some (lit "/v2.mp4").
Proof.
  intros st data.
  destruct (video_takes_precedence_over_audio st data 7 ManualInput.speaking)
    as (H1 & _ & _ & H2).
  split; [reflexivity|]. split; [reflexivity|]. split; [reflexivity|].
  split; [exact (proj1 (H1 eq_refl)) | exact (proj1 (H2 eq_refl eq_refl))].
Defined.

(** ** Clearing the conversation *)

Section Clearing.

Import ChatInterface.

(** C6, as stated, fails on the store.  The conversation has been answered
    and its video plays.  [clearChat] then goes through four states, one per
    call; counted as (turns in the transcript, conversation id, video
    reference, audio reference), the first two have the transcript empty and
    the video reference still set, and in them the video is still what
    plays: a subscriber of the store sees a partial clear. *)
Lemma clearChat_publishes_a_partial_clear :
  length (Store.messages (store answered)) = 2%nat /\
  Store.currentVideoUrl (store answered) = Some (lit "/v.mp4") /\
  map (fun s => (length (Store.messages (store s)), conversationId s,
                 Store.currentVideoUrl (store s), Store.currentAudioUrl (store s)))
      (states_through clearChat_writes answered)
  = [ (0%nat, Some (lit "cv1"), Some (lit "/v.mp4"), None);
      (0%nat, None, Some (lit "/v.mp4"), None);
      (0%nat, None, None, None);
      (0%nat, None, None, None) ] /\
  map (fun s => AvatarDisplay.playing (store s))
      (states_through clearChat_writes answered)
  = [ AvatarDisplay.PlayingVideo (lit "/v.mp4");
      AvatarDisplay.PlayingVideo (lit "/v.mp4");
      AvatarDisplay.Silent; AvatarDisplay.Silent ].
Proof. repeat split. Qed.

(** C6, amended.  When [clearChat] returns, the transcript is empty and
    there is no conversation id, no current video and no current audio
    reference; the rest of the state is as it was, nothing is shown as video
    and nothing plays; the clear button, when it is rendered, does exactly
    this.  It gets there by four calls in a row (the transcript, the
    conversation id, the video reference, the audio reference), the store
    going through one state per call of its own three, the last of which is
    the cleared one.  A send that is in flight is not cancelled: when its
    answer arrives after the clear, the transcript holds that answer alone
    and the conversation id of the answer is adopted. *)
Theorem clearChat_clears_in_four_writes
  (cloneId imageId : jsstr) (id : nat) (data : ChatResponse.t) (now : jsstr)
  (s : State) :
  clearChat s
  = mkState
      (Store.mkAppState
         (Store.voiceId (store s)) (Store.cloneId (store s))
         (Store.imageId (store s)) (Store.isReady (store s))
         (Store.mode (store s)) (Store.conversationId (store s))
         [] (Store.isLoading (store s)) None None)
      (input s) None (isRecording s) (sendMessageMutation s) /\
  Store.messages (store (clearChat s)) = [] /\
  conversationId (clearChat s) = None /\
  Store.currentVideoUrl (store (clearChat s)) = None /\
  Store.currentAudioUrl (store (clearChat s)) = None /\
  AvatarDisplay.audio_element (store (clearChat s)) = None /\
  AvatarDisplay.playing (store (clearChat s)) = AvatarDisplay.Silent /\
  step cloneId imageId s ClickClear = (if clear_shown s then clearChat s else s) /\
  last (states_through clearChat_writes s) = Some (clearChat s) /\
  map store (states_through clearChat_writes s)
  = [ Store.setMessages [] (store s);
      Store.setMessages [] (store s);
      Store.setCurrentVideo None (Store.setMessages [] (store s));
      Store.setCurrentAudio None
        (Store.setCurrentVideo None (Store.setMessages [] (store s))) ] /\
  (Mutation.is_in_flight id (sendMessageMutation s) = true ->
   Store.messages
     (store (send_settled id (Mutation.Resolved data) now (clearChat s)))
   = [ChatResponse.response data] /\
   conversationId (send_settled id (Mutation.Resolved data) now (clearChat s))
   = Some (ChatResponse.conversation_id data)).
Proof.
  split; [by (destruct s as [st inp cv rec sm]; destruct st)|].
  do 4 (split; [by (destruct s as [st inp cv rec sm]; destruct st)|]).
  split; [by (destruct s as [st inp cv rec sm]; destruct st)|].
  split.
  { destruct s as [st inp cv rec sm]. destruct st.
    unfold AvatarDisplay.playing, AvatarDisplay.stage. simpl.
    by destruct (truthy _). }
  split; [reflexivity|]. split; [reflexivity|]. split; [reflexivity|].
  intros Hf. unfold send_settled.
  assert (E : Mutation.is_in_flight id (sendMessageMutation (clearChat s)) = true)
    by exact Hf.
  rewrite E. unfold send_onSuccess.
  destruct s as [st inp cv rec sm]. destruct st.
  by repeat destruct (truthy _).
Qed.

End Clearing.

Lemma clearChat_witness :
  Mutation.is_in_flight 0 (ChatInterface.sendMessageMutation ChatInterface.sending)
    = true /\
  Store.messages
    (ChatInterface.store
       (ChatInterface.send_settled 0 (Mutation.Resolved ChatInterface.video_answer)
          (lit "later") (ChatInterface.clearChat ChatInterface.sending)))
  = [ChatResponse.response ChatInterface.video_answer] /\
  ChatInterface.conversationId
    (ChatInterface.send_settled 0 (Mutation.Resolved ChatInterface.video_answer)
       (lit "later") (ChatInterface.clearChat ChatInterface.sending))
  = Some (lit "cv1").
Proof.
  split; [reflexivity|].
  exact (proj2 (proj2 (proj2 (proj2 (proj2 (proj2 (proj2 (proj2 (proj2 (proj2
    (clearChat_clears_in_four_writes (lit "c1") (lit "i1") 0
       ChatInterface.video_answer (lit "later") ChatInterface.sending))))))))))
    eq_refl).
Defined.

(** ** The text cap at work *)

Lemma manual_text_truncated_witness :
  (length (repeat 97%N 5000) <= 5000)%nat /\
  (5000 <= length (repeat 97%N 5000))%nat /\
  ManualInput.text
    (ManualInput.onChange (repeat 97%N 5000 ++ lit "xyz")
       (ManualInput.mount Store.setup_done))
  = ManualInput.text
      (ManualInput.onChange (repeat 97%N 5000) (ManualInput.mount Store.setup_done)) /\
  ManualInput.text
    (ManualInput.onChange (repeat 97%N 5000) (ManualInput.mount Store.setup_done))
  = repeat 97%N 5000.
Proof.
  destruct (manual_text_truncated_at_cap (repeat 97%N 5000)
              (ManualInput.mount Store.setup_done))
    as (_ & _ & _ & Hshort & Hextra & _).
  assert (H1 : (length (repeat 97%N 5000) <= 5000)%nat)
    by (rewrite repeat_length; lia).
  assert (H2 : (5000 <= length (repeat 97%N 5000))%nat)
    by (rewrite repeat_length; lia).
  split; [exact H1|]. split; [exact H2|].
  split; [exact (Hextra (lit "xyz") H2) | exact (Hshort H1)].
Defined.

(** * Further properties *)

(** ** The store over its life *)

Section StoreLife.

Import Store.

Lemma all_ids_set_iff (s : AppState) :
  all_ids_set s = true <->
  exists v c i, voiceId s = Some v /\ cloneId s = Some c /\ imageId s = Some i.
Proof.
  unfold all_ids_set.
  destruct (voiceId s) as [v|], (cloneId s) as [c|], (imageId s) as [i|]; simpl;
    (split; [intros H; try discriminate H; eauto 7
            | intros (? & ? & ? & ? & ? & ?); congruence]).
Qed.

(** X1.  Over every sequence of store actions from the initial state the
    readiness flag agrees with the identifiers. *)
Theorem ready_consistent_from_initial_state (l : list Action) :
  ready_consistent (run initialState l) /\
  (isReady (run initialState l) = true <->
   exists v c i,
     voiceId (run initialState l) = Some v /\
     cloneId (run initialState l) = Some c /\
     imageId (run initialState l) = Some i).
Proof.
  assert (H : ready_consistent (run initialState l))
    by apply run_ready_consistent, initial_ready_consistent.
  split; [exact H|]. rewrite H. apply all_ids_set_iff.
Qed.

(** X2.  A write to the session re-establishes the flag whatever the state was,
    a state left by a reload included. *)
Theorem session_write_restores_ready (s : AppState) (a : Action) :
  touches_session a = true -> ready_consistent (act s a).
Proof.
  destruct a; simpl; try discriminate; intros _;
    auto using setVoiceId_ready, setCloneId_ready, setImageId_ready, reset_ready.
Qed.

Lemma act_session_ready s a :
  touches_session a = true -> ready_consistent (act s a).
Proof.
  destruct a; simpl; try discriminate; intros _;
    auto using setVoiceId_ready, setCloneId_ready, setImageId_ready, reset_ready.
Qed.

Lemma act_keeps_session s a :
  touches_session a = false ->
  voiceId (act s a) = voiceId s /\ cloneId (act s a) = cloneId s /\
  imageId (act s a) = imageId s /\ isReady (act s a) = isReady s.
Proof. intros H. destruct a; try discriminate H; by destruct s. Qed.

Lemma apply_ready_sound s op :
  (isReady s = true -> all_ids_set s = true) ->
  isReady (apply s op) = true -> all_ids_set (apply s op) = true.
Proof.
  intros H. destruct op as [a|]; simpl.
  - destruct (touches_session a) eqn:E.
    + intros Hr. by rewrite <- (act_session_ready s a E).
    + destruct a; try discriminate E; destruct s; exact H.
  - discriminate.
Qed.

Lemma life_ready_sound (ops : list Op) :
  isReady (life initialState ops) = true ->
  all_ids_set (life initialState ops) = true.
Proof.
  unfold life.
  assert (G : forall s, (isReady s = true -> all_ids_set s = true) ->
              isReady (fold_left apply ops s) = true ->
              all_ids_set (fold_left apply ops s) = true).
  { induction ops as [|op ops IH]; intros s Hs; simpl; [done|].
    apply IH. by apply apply_ready_sound. }
  apply G. discriminate.
Qed.

(** X3.  Over every sequence of actions and page reloads from the initial state,
    the store never reports ready with an identifier missing. *)
Theorem ready_never_without_identifiers (ops : list Op) :
  isReady (life initialState ops) = true ->
  exists v c i,
    voiceId (life initialState ops) = Some v /\
    cloneId (life initialState ops) = Some c /\
    imageId (life initialState ops) = Some i.
Proof.
  assert (H : isReady (life initialState ops) = true ->
              all_ids_set (life initialState ops) = true).
  { unfold life.
    assert (G : forall s, (isReady s = true -> all_ids_set s = true) ->
                isReady (fold_left apply ops s) = true ->
                all_ids_set (fold_left apply ops s) = true).
    { induction ops as [|op ops IH]; intros s Hs; simpl; [done|].
      apply IH. by apply apply_ready_sound. }
    apply G. discriminate. }
  intros Hr. apply all_ids_set_iff. by apply H.
Qed.

(** X4.  The three setters commute with one another, and the later of two writes
    of the same identifier wins. *)
Theorem session_setters_commute (a b c : option jsstr) (s : AppState) :
  setVoiceId a (setCloneId b s) = setCloneId b (setVoiceId a s) /\
  setVoiceId a (setImageId c s) = setImageId c (setVoiceId a s) /\
  setCloneId b (setImageId c s) = setImageId c (setCloneId b s) /\
  setVoiceId a (setVoiceId b s) = setVoiceId a s /\
  setCloneId a (setCloneId b s) = setCloneId a s /\
  setImageId a (setImageId b s) = setImageId a s.
Proof. destruct s. repeat split. Qed.

(** X5.  What is written to storage comes back: the stored object of a reloaded
    state is the stored object of the state, a second reload changes
    nothing, and with nothing stored the store starts from its initial
    state. *)
Theorem persisted_identifiers_round_trip (s : AppState) :
  partialize (reload s) = partialize s /\
  voiceId (reload s) = voiceId s /\
  cloneId (reload s) = cloneId s /\
  imageId (reload s) = imageId s /\
  reload (reload s) = reload s /\
  rehydrate None = initialState /\
  reload initialState = initialState.
Proof. repeat split. Qed.

(** X6.  The actions on the mode, the transcript, the loading flag and the media
    references leave the stored object, and with it the identifiers and the
    readiness flag, as they were. *)
Theorem other_actions_keep_the_session (s : AppState) (a : Action) :
  touches_session a = false ->
  partialize (act s a) = partialize s /\
  isReady (act s a) = isReady s /\
  reload (act s a) = reload s.
Proof.
  intros H. destruct a; try discriminate H; by destruct s.
Qed.

End StoreLife.

Lemma session_write_restores_ready_witness :
  Store.touches_session (Store.SetVoiceId (Some (lit "v2"))) = true /\
  Store.isReady (Store.reload Store.setup_done) = false /\
  Store.isReady
    (Store.act (Store.reload Store.setup_done) (Store.SetVoiceId (Some (lit "v2"))))
  = true.
Proof.
  pose proof (session_write_restores_ready (Store.reload Store.setup_done)
                (Store.SetVoiceId (Some (lit "v2"))) eq_refl) as H.
  split; [reflexivity|]. split; [reflexivity|]. exact H.
Defined.

Lemma ready_never_without_identifiers_witness :
  let ops :=
    [ Store.Do (Store.SetVoiceId (Some (lit "v1")));
      Store.Do (Store.SetCloneId (Some (lit "c1")));
      Store.Reload;
      Store.Do (Store.SetImageId (Some (lit "i1"))) ] in
  Store.isReady (Store.life Store.initialState ops) = true /\
  exists v c i,
    Store.voiceId (Store.life Store.initialState ops) = Some v /\
    Store.cloneId (Store.life Store.initialState ops) = Some c /\
    Store.imageId (Store.life Store.initialState ops) = Some i.
Proof.
  intros ops. split; [reflexivity|].
  exact (ready_never_without_identifiers ops eq_refl).
Defined.

Lemma other_actions_keep_the_session_witness :
  Store.touches_session (Store.SetCurrentVideo (Some (lit "/v.mp4"))) = false /\
  Store.partialize
    (Store.act Store.setup_done (Store.SetCurrentVideo (Some (lit "/v.mp4"))))
  = Store.partialize Store.setup_done.
Proof.
  split; [reflexivity|].
  exact (proj1 (other_actions_keep_the_session Store.setup_done
                  (Store.SetCurrentVideo (Some (lit "/v.mp4"))) eq_refl)).
Defined.

(** ** The page and the setup panel *)

Section Setup.

Import UploadPanel.

(** X7.  Exactly one of the setup panel and the main content is rendered; at the
    first render the main content is shown when the store is ready and the
    panel otherwise; after [handleReset] the store is back in its initial
    state, the panel is shown, and a panel mounted then starts at the voice
    step; after the panel's [onComplete] the main content is shown exactly
    when the store is ready. *)
Theorem page_shows_panel_or_content (st : Store.AppState) (showSetup : bool) (h : Home.State) :
  Home.main_content_shown st showSetup = negb (Home.setup_panel_shown st showSetup) /\
  Home.main_content_shown st (Home.showSetup (Home.mount st)) = Store.isReady st /\
  Home.store (Home.handleReset h) = Store.initialState /\
  Home.setup_panel_shown (Home.store (Home.handleReset h))
    (Home.showSetup (Home.handleReset h)) = true /\
  Home.main_content_shown (Home.store (Home.handleReset h))
    (Home.showSetup (Home.handleReset h)) = false /\
  currentStep (mount (Home.store (Home.handleReset h))) = voice /\
  Home.main_content_shown (Home.store (Home.onComplete h))
    (Home.showSetup (Home.onComplete h)) = Store.isReady (Home.store h).
Proof.
  destruct h as [hs b]. destruct hs. destruct st. simpl.
  unfold Home.main_content_shown, Home.setup_panel_shown. simpl.
  repeat split.
  - by destruct showSetup, isReady0.
  - by destruct isReady0.
  - by destruct isReady.
Qed.

(** X8.  Whatever actions and reloads the store has gone through, when the main
    content is rendered the clone and image identifiers handed to the chat
    and manual components are there. *)
Theorem main_content_has_its_identifiers (ops : list Store.Op) (showSetup : bool) :
  Home.main_content_shown (Store.life Store.initialState ops) showSetup = true ->
  exists c i,
    Store.cloneId (Store.life Store.initialState ops) = Some c /\
    Store.imageId (Store.life Store.initialState ops) = Some i.
Proof.
  intros H. apply andb_true_iff in H as [H _].
  apply life_ready_sound, all_ids_set_iff in H as (v & c & i & _ & Hc & Hi).
  eauto.
Qed.


Lemma is_in_flight_not_empty {V} (id : nat) (m : Mutation.t V) :
  Mutation.is_in_flight id m = true -> Mutation.in_flight m <> [].
Proof. unfold Mutation.is_in_flight. by destruct (Mutation.in_flight m). Qed.

Lemma truthy_not_None (v : option jsstr) : truthy v = true -> v <> None.
Proof. by destruct v. Qed.

Ltac order_goal :=
  first
    [ assumption
    | discriminate
    | congruence
    | by left
    | by right
    | intros [?|?]; congruence
    | intros ?; congruence
    | auto ].

Lemma step_steps_in_order (s : State) (e : Event) :
  session_left_alone e = true ->
  steps_in_order s -> steps_in_order (step s e).
Proof.
  intros Ha H. pose proof H as (H1 & H2 & H3 & H4 & H5 & H6).
  destruct e as [files| |files| |id o|id o|id o|a]; simpl.
  - destruct (currentStep s) eqn:E; try exact H.
    destruct files as [|f files]; exact H.
  - destruct (currentStep s) eqn:E; try exact H.
    destruct (Mutation.isPending (voiceCloneMutation s)); [exact H|].
    unfold handleCreateClone.
    destruct (truthy (Store.voiceId (store s))) eqn:Ev; [|exact H].
    apply truthy_not_None in Ev.
    unfold steps_in_order. simpl. rewrite E.
    split; [by right|]. split; [order_goal|]. split; [order_goal|].
    split; [done|]. split; [exact H5 | exact H6].
  - destruct (currentStep s) eqn:E; try exact H.
    destruct files as [|f files]; [exact H|].
    assert (Hv : Store.voiceId (store s) <> None).
    { destruct H1 as [H1|H1]; [congruence | exact H1]. }
    assert (Hc : Store.cloneId (store s) <> None) by (apply H2; by left).
    unfold steps_in_order. simpl. rewrite E.
    split; [by right|]. split; [done|]. split; [order_goal|].
    split; [exact H4|]. split; [done | exact H6].
  - destruct (currentStep s) eqn:E; exact H.
  - unfold voiceUpload_settled.
    destruct (Mutation.is_in_flight id (voiceUploadMutation s)); [|exact H].
    destruct o as [x|detail]; [|exact H].
    unfold steps_in_order.
    destruct s as [st cs er vm cm im n]. destruct st. simpl in *.
    split; [by right|]. split; [order_goal|]. split; [order_goal|].
    split; [done|]. split; [|reflexivity].
    intros Hf. split; [done | by destruct (H5 Hf)].
  - unfold voiceClone_settled.
    destruct (Mutation.is_in_flight id (voiceCloneMutation s)) eqn:Ef; [|exact H].
    apply is_in_flight_not_empty, H4 in Ef.
    destruct o as [x|detail].
    + unfold steps_in_order.
      destruct s as [st cs er vm cm im n]. destruct st. simpl in *.
      split; [by right|]. split; [done|]. split; [order_goal|].
      split; [done|]. split; [done | reflexivity].
    + unfold steps_in_order. simpl.
      split; [exact H1|]. split; [exact H2|]. split; [exact H3|].
      split; [done|]. split; [exact H5 | exact H6].
  - unfold imageUpload_settled.
    destruct (Mutation.is_in_flight id (imageUploadMutation s)) eqn:Ef; [|exact H].
    apply is_in_flight_not_empty, H5 in Ef as [Ev Ec].
    destruct o as [x|detail].
    + unfold steps_in_order.
      destruct s as [st cs er vm cm im n]. destruct st. simpl in *.
      split; [by right|]. split; [done|]. split; [done|].
      split; [done|]. split; [done | reflexivity].
    + unfold steps_in_order. simpl.
      split; [exact H1|]. split; [exact H2|]. split; [exact H3|].
      split; [exact H4|]. split; [done | exact H6].
  - simpl in Ha. apply negb_true_iff in Ha.
    destruct (act_keeps_session (store s) a Ha) as (Ev & Ec & Ei & Er).
    unfold steps_in_order, Store.ready_consistent, Store.all_ids_set in *.
    simpl. by rewrite Ev, Ec, Ei, Er.
Qed.

Lemma run_steps_in_order (es : list Event) (s : State) :
  forallb session_left_alone es = true ->
  steps_in_order s -> steps_in_order (run s es).
Proof.
  unfold run. revert s.
  induction es as [|e es IH]; intros s Ha H; simpl; [done|].
  simpl in Ha. apply andb_true_iff in Ha as [He Ha].
  apply IH; [done|]. by apply step_steps_in_order.
Qed.

(** The reset button of the page header empties the store under a mounted
    panel and leaves the panel's step where it was: after a first upload
    the panel then stands at the clone step over a store without a voice
    identifier. *)
Lemma outside_reset_keeps_the_panel_step (s : State) (f : File.t) (v : jsstr) :
  currentStep (step s (Outside Store.Reset)) = currentStep s /\
  store (step s (Outside Store.Reset)) = Store.initialState /\
  currentStep
    (run (mount Store.initialState)
       [ VoiceDrop [f]; VoiceUploadSettled 0 (inl v); Outside Store.Reset ]) = clone /\
  Store.voiceId
    (store
       (run (mount Store.initialState)
          [ VoiceDrop [f]; VoiceUploadSettled 0 (inl v); Outside Store.Reset ])) = None.
Proof. destruct s as [st cs er vm cm im n]. destruct st. repeat split. Qed.

Lemma mount_initial_steps_in_order : steps_in_order (mount Store.initialState).
Proof.
  unfold steps_in_order. simpl.
  repeat split; auto; try discriminate; intros [?|?]; discriminate.
Qed.

(** X10.  On a first visit, along every sequence of panel events and
    outside store actions in which nothing outside the panel writes the
    session (no reset, no outside write of an identifier), the panel is at
    its last step only with all three identifiers in the store and the
    store ready; it is at the image step only with the voice and clone
    identifiers there, and at the clone step only with the voice identifier
    there. *)
Theorem setup_step_never_ahead_of_the_store (es : list Event) :
  forallb session_left_alone es = true ->
  let s := run (mount Store.initialState) es in
  (currentStep s = complete ->
     Store.isReady (store s) = true /\
     exists v c i,
       Store.voiceId (store s) = Some v /\ Store.cloneId (store s) = Some c /\
       Store.imageId (store s) = Some i) /\
  (currentStep s = image ->
     Store.voiceId (store s) <> None /\ Store.cloneId (store s) <> None) /\
  (currentStep s = clone -> Store.voiceId (store s) <> None).
Proof.
  intros Ha s.
  destruct (run_steps_in_order es _ Ha mount_initial_steps_in_order)
    as (H1 & H2 & H3 & _ & _ & H6). fold s in H1, H2, H3, H6.
  split; [|split].
  - intros E.
    assert (Hi : Store.all_ids_set (store s) = true).
    { unfold Store.all_ids_set.
      destruct H1 as [H1|H1]; [congruence|].
      specialize (H2 (or_intror E)). specialize (H3 E).
      destruct (Store.voiceId (store s)), (Store.cloneId (store s)),
        (Store.imageId (store s)); done. }
    split; [by rewrite H6 | by apply all_ids_set_iff].
  - intros E. split; [|by apply H2; left].
    destruct H1 as [H1|H1]; [congruence | exact H1].
  - intros E. destruct H1 as [H1|H1]; [congruence | exact H1].
Qed.

(** X11.  The setup in order.  On a first visit a voice file is dropped and
    accepted, the clone is created from the returned (non-empty) voice
    identifier, and an image is dropped and accepted: the store then holds
    the three returned identifiers and is ready, the panel is at its last
    step without an error, [onComplete] has been called once, and the clone
    request carried the voice identifier. *)
Theorem setup_in_order_reaches_ready
  (f g : File.t) (fs gs : list File.t) (v c i : jsstr) :
  v <> [] ->
  let after_voice :=
    run (mount Store.initialState)
      [ VoiceDrop (f :: fs); VoiceUploadSettled 0 (inl v); ClickCreateClone ] in
  let s :=
    run after_voice
      [ VoiceCloneSettled 0 (inl c); ImageDrop (g :: gs);
        ImageUploadSettled 0 (inl i) ] in
  Mutation.in_flight (voiceCloneMutation after_voice)
  = [ (0%nat, VoiceCloneRequest.mk v (Some (lit "My Avatar Voice")) None) ] /\
  Store.voiceId (store s) = Some v /\
  Store.cloneId (store s) = Some c /\
  Store.imageId (store s) = Some i /\
  Store.isReady (store s) = true /\
  currentStep s = complete /\
  error s = None /\
  onComplete_calls s = 1%nat.
Proof.
  intros Hv. destruct v as [|a v]; [done|]. repeat split.
Qed.

End Setup.

Lemma main_content_has_its_identifiers_witness :
  let ops :=
    [ Store.Do (Store.SetVoiceId (Some (lit "v1")));
      Store.Do (Store.SetCloneId (Some (lit "c1")));
      Store.Reload;
      Store.Do (Store.SetImageId (Some (lit "i1"))) ] in
  Home.main_content_shown (Store.life Store.initialState ops) false = true /\
  exists c i,
    Store.cloneId (Store.life Store.initialState ops) = Some c /\
    Store.imageId (Store.life Store.initialState ops) = Some i.
Proof.
  intros ops. split; [reflexivity|].
  exact (main_content_has_its_identifiers ops false eq_refl).
Defined.

Lemma setup_in_order_witness :
  lit "v1" <> [] /\
  Store.isReady
    (UploadPanel.store
       (UploadPanel.run
          (UploadPanel.run (UploadPanel.mount Store.initialState)
             [ UploadPanel.VoiceDrop
                 [UploadPanel.File.mk (lit "a.wav") (lit "audio/wav") 3000000];
               UploadPanel.VoiceUploadSettled 0 (inl (lit "v1"));
               UploadPanel.ClickCreateClone ])
          [ UploadPanel.VoiceCloneSettled 0 (inl (lit "c1"));
            UploadPanel.ImageDrop
              [UploadPanel.File.mk (lit "a.jpg") (lit "image/jpeg") 2000000];
            UploadPanel.ImageUploadSettled 0 (inl (lit "i1")) ])) = true.
Proof.
  assert (H : lit "v1" <> []) by discriminate.
  split; [exact H|].
  exact (proj1 (proj2 (proj2 (proj2 (proj2
    (setup_in_order_reaches_ready
       (UploadPanel.File.mk (lit "a.wav") (lit "audio/wav") 3000000)
       (UploadPanel.File.mk (lit "a.jpg") (lit "image/jpeg") 2000000)
       [] [] (lit "v1") (lit "c1") (lit "i1") H)))))).
Defined.

Lemma setup_step_witness :
  let es :=
    [ UploadPanel.VoiceDrop [UploadPanel.File.mk (lit "a.wav") (lit "audio/wav") 3000000];
      UploadPanel.Outside (Store.SetIsLoading false);
      UploadPanel.VoiceUploadSettled 0 (inl (lit "v1")) ] in
  forallb UploadPanel.session_left_alone es = true /\
  UploadPanel.currentStep (UploadPanel.run (UploadPanel.mount Store.initialState) es)
  = UploadPanel.clone /\
  Store.voiceId
    (UploadPanel.store (UploadPanel.run (UploadPanel.mount Store.initialState) es))
  <> None.
Proof.
  intros es. split; [reflexivity|]. split; [reflexivity|].
  exact (proj2 (proj2 (setup_step_never_ahead_of_the_store es eq_refl)) eq_refl).
Defined.


(** ** Trimming *)

Section TrimFacts.

Lemma trimStart_all_white (s : jsstr) :
  forallb is_white_space s = true -> trimStart s = [].
Proof.
  induction s as [|c r IH]; simpl; [done|].
  intros H. apply andb_true_iff in H as [Hc Hr]. rewrite Hc. by apply IH.
Qed.

Lemma trimStart_nil (s : jsstr) :
  trimStart s = [] -> forallb is_white_space s = true.
Proof.
  induction s as [|c r IH]; simpl; [done|].
  destruct (is_white_space c); [exact IH | discriminate].
Qed.

Lemma trimStart_head (s : jsstr) (c : N) (r : jsstr) :
  trimStart s = c :: r -> is_white_space c = false.
Proof.
  induction s as [|a t IH]; simpl; [discriminate|].
  destruct (is_white_space a) eqn:E; [exact IH|].
  intros H. by injection H as <- _.
Qed.

(** [trimStart] drops a prefix made of white space. *)
Lemma trimStart_suffix (s : jsstr) :
  exists ws, s = ws ++ trimStart s /\ forallb is_white_space ws = true.
Proof.
  induction s as [|a t (ws & E & H)]; simpl; [by exists []|].
  destruct (is_white_space a) eqn:Ea.
  - exists (a :: ws). simpl. rewrite Ea, H. split; [by f_equal | done].
  - by exists [].
Qed.

Lemma forallb_rev (l : jsstr) :
  forallb is_white_space (rev l) = forallb is_white_space l.
Proof.
  induction l as [|a t IH]; simpl; [done|].
  rewrite forallb_app, IH. simpl. rewrite andb_true_r. apply andb_comm.
Qed.

(** A text trims to the empty string exactly when it is empty or all white
    space. *)
Lemma trim_blank (s : jsstr) :
  negb (str_truthy (trim s)) = forallb is_white_space s.
Proof.
  destruct (forallb is_white_space s) eqn:E.
  - unfold trim. by rewrite (trimStart_all_white s E).
  - destruct (trim s) as [|c r] eqn:Et; [|done]. exfalso.
    unfold trim, trimEnd in Et.
    apply (f_equal (@rev N)) in Et. rewrite rev_involutive in Et. simpl in Et.
    apply trimStart_nil in Et. rewrite forallb_rev in Et.
    destruct (trimStart s) as [|a t] eqn:Es.
    + apply trimStart_nil in Es. congruence.
    + apply trimStart_head in Es. simpl in Et. by rewrite Es in Et.
Qed.

Lemma last_cons (a d : N) (t : jsstr) :
  List.last (a :: t) d = List.last t a.
Proof.
  revert a d. induction t as [|b t IH]; intros a d; [done|].
  change (List.last (a :: b :: t) d) with (List.last (b :: t) d).
  by rewrite !IH.
Qed.

(** What [trim] leaves, when it leaves anything, neither begins nor ends
    with white space. *)
Lemma trim_trimmed_nonblank (s : jsstr) :
  str_truthy (trim s) = true -> trimmed_nonblank (trim s) = true.
Proof.
  unfold trim, trimEnd. set (y := trimStart s).
  destruct (trimStart_suffix (rev y)) as (ws & E & Hws).
  destruct (trimStart (rev y)) as [|c r] eqn:Ez; [done|].
  intros _. pose proof (trimStart_head _ _ _ Ez) as Hc.
  apply (f_equal (@rev N)) in E. rewrite rev_involutive, rev_app_distr in E.
  simpl in *.
  destruct (rev r ++ [c]) as [|a t] eqn:El.
  { by destruct (rev r). }
  assert (Ha : is_white_space a = false).
  { rewrite E in *. simpl in *. subst y. by apply trimStart_head in E. }
  assert (Hl : List.last t a = c).
  { rewrite <- (last_cons a 0%N t), <- El. apply last_last. }
  simpl. by rewrite Ha, Hl, Hc.
Qed.

End TrimFacts.

(** ** The manual orchestrator over its life *)

Section ManualLife.

Import ManualInput.

Variables (cloneId imageId : jsstr).

(** X12.  The two buttons are disabled exactly when the text is empty or all
    white space, or a task is pending; and with such a text the handlers
    themselves start nothing and change nothing. *)
Theorem blank_text_is_never_submitted (s : State) :
  button_disabled s = forallb is_white_space (text s) || isLoading s /\
  (forallb is_white_space (text s) = true ->
   handleSpeak cloneId imageId s = s /\
   handlePreview cloneId s = s /\
   step cloneId imageId s ClickSpeak = s /\
   step cloneId imageId s ClickPreview = s).
Proof.
  split.
  - unfold button_disabled. by rewrite trim_blank.
  - intros H. simpl. unfold button_disabled, handleSpeak, handlePreview.
    by rewrite trim_blank, H.
Qed.

(** X13.  Along every run of the component the text stays within the cap. *)
Theorem text_stays_within_cap (es : list Event) (st : Store.AppState) :
  (Z.of_nat (charCount (run cloneId imageId (mount st) es)) <= MAX_CHARS)%Z.
Proof.
  unfold charCount, MAX_CHARS.
  assert (G : forall s, (length (text s) <= 5000)%nat ->
              (length (text (run cloneId imageId s es)) <= 5000)%nat).
  { unfold run. induction es as [|e es IH]; intros s H; simpl; [done|].
    apply IH. destruct e as [v|b| | |i|id o now|id o]; simpl.
    - destruct (textarea_disabled s); [done|].
      unfold onChange. simpl. rewrite slice_from_start by done.
      apply firstn_le_length.
    - done.
    - destruct (button_disabled s); [done|]. unfold handlePreview.
      by destruct (negb _).
    - destruct (button_disabled s); [done|]. unfold handleSpeak.
      by destruct (negb _).
    - destruct (history s !! i) as [item|]; [|done]. unfold playFromHistory.
      destruct (truthy _); [done|]. by destruct (truthy _).
    - unfold speak_settled.
      destruct (Mutation.is_in_flight id (speakMutation s)); [|done].
      destruct o as [data|]; simpl; [lia | done].
    - unfold preview_settled.
      destruct (Mutation.is_in_flight id (previewMutation s)); [|done].
      by destruct o. }
  specialize (G (mount st)). simpl in G. lia.
Qed.

Lemma Forall_settle {V} (P : nat * V -> Prop) (id : nat) (m : Mutation.t V) :
  Forall P (Mutation.in_flight m) ->
  Forall P (Mutation.in_flight (Mutation.settle id m)).
Proof.
  unfold Mutation.settle. simpl. induction 1 as [|e l He Hl IH]; simpl; [done|].
  destruct (negb _); [by constructor | done].
Qed.

Lemma step_requests_ok (s : State) (e : Event) :
  requests_ok cloneId imageId s ->
  requests_ok cloneId imageId (step cloneId imageId s e).
Proof.
  intros [Hs Hp]. destruct e as [v|b| | |i|id o now|id o]; simpl.
  - by destruct (textarea_disabled s).
  - done.
  - destruct (button_disabled s); [done|]. unfold handlePreview.
    destruct (negb (str_truthy (trim (text s)))) eqn:E; [done|].
    apply negb_false_iff in E. split; [exact Hs|]. simpl.
    constructor; [|exact Hp]. split; [by apply trim_trimmed_nonblank | done].
  - destruct (button_disabled s); [done|]. unfold handleSpeak.
    destruct (negb (str_truthy (trim (text s)))) eqn:E; [done|].
    apply negb_false_iff in E. split; [|exact Hp]. simpl.
    constructor; [|exact Hs].
    split; [by apply trim_trimmed_nonblank|]. repeat split. by eexists.
  - destruct (history s !! i) as [item|]; [|done]. unfold playFromHistory.
    destruct (truthy _); [done|]. by destruct (truthy _).
  - unfold speak_settled.
    destruct (Mutation.is_in_flight id (speakMutation s)); [|done].
    assert (G : Forall (fun e => speak_request_ok cloneId imageId (snd e))
                  (Mutation.in_flight (Mutation.settle id (speakMutation s))))
      by by apply Forall_settle.
    destruct o as [data|]; [|by split].
    unfold speak_onSuccess. by repeat destruct (truthy _).
  - unfold preview_settled.
    destruct (Mutation.is_in_flight id (previewMutation s)); [|done].
    assert (G : Forall (fun e => preview_request_ok cloneId (snd e))
                  (Mutation.in_flight (Mutation.settle id (previewMutation s))))
      by by apply Forall_settle.
    by destruct o.
Qed.

(** X14.  Every request the component has in flight, along every run, carries a
    text that is not empty and neither begins nor ends with white space,
    and the identifiers given as props. *)
Theorem manual_requests_are_trimmed_and_nonblank
  (es : list Event) (st : Store.AppState) :
  requests_ok cloneId imageId (run cloneId imageId (mount st) es).
Proof.
  unfold run.
  assert (H : requests_ok cloneId imageId (mount st)) by (split; constructor).
  revert H. generalize (mount st).
  induction es as [|e es IH]; intros s H; simpl; [done|].
  apply IH. by apply step_requests_ok.
Qed.



(** X16.  Selecting a history entry starts no request and changes neither the
    history nor the text; doing it twice is doing it once; and selecting the
    entry a completed speak has just recorded changes nothing at all. *)
Theorem replay_is_pure_and_idempotent
  (item : TaskHistory.t) (data : ManualSpeakResponse.t) (now : Z) (s : State) :
  history (playFromHistory item s) = history s /\
  text (playFromHistory item s) = text s /\
  speakMutation (playFromHistory item s) = speakMutation s /\
  previewMutation (playFromHistory item s) = previewMutation s /\
  Store.isLoading (store (playFromHistory item s)) = Store.isLoading (store s) /\
  playFromHistory item (playFromHistory item s) = playFromHistory item s /\
  playFromHistory (entry data now) (speak_onSuccess data now s)
  = speak_onSuccess data now s.
Proof.
  destruct s as [st tx po hs sm pm]. destruct st.
  unfold playFromHistory, speak_onSuccess. simpl.
  destruct (truthy (TaskHistory.video_url item)),
    (truthy (TaskHistory.audio_url item)),
    (truthy (ManualSpeakResponse.video_url data)),
    (truthy (ManualSpeakResponse.audio_url data)); repeat split.
Qed.

(** X17.  A completed speak empties the text, so that both buttons are disabled
    until something is typed; a failed one keeps the text. *)
Theorem completed_speak_empties_the_buffer
  (id : nat) (data : ManualSpeakResponse.t) (now : Z) (s : State) :
  Mutation.is_in_flight id (speakMutation s) = true ->
  text (speak_settled id (Mutation.Resolved data) now s) = [] /\
  button_disabled (speak_settled id (Mutation.Resolved data) now s) = true /\
  step cloneId imageId (speak_settled id (Mutation.Resolved data) now s) ClickSpeak
  = speak_settled id (Mutation.Resolved data) now s /\
  text (speak_settled id Mutation.Rejected now s) = text s.
Proof.
  intros H. unfold speak_settled. rewrite H.
  assert (E : text (on_speakMutation (Mutation.settle id)
                (speak_onSettled (speak_onSuccess data now s))) = []).
  { unfold speak_onSuccess. by repeat destruct (truthy _). }
  split; [exact E|].
  assert (B : button_disabled (on_speakMutation (Mutation.settle id)
                (speak_onSettled (speak_onSuccess data now s))) = true).
  { unfold button_disabled. by rewrite E. }
  split; [exact B|]. split; [|done].
  set (x := on_speakMutation _ _) in *.
  change (step cloneId imageId x ClickSpeak)
    with (if button_disabled x then x else handleSpeak cloneId imageId x).
  by rewrite B.
Qed.

End ManualLife.

Lemma blank_text_witness :
  forallb is_white_space
    (ManualInput.text
       (ManualInput.onChange [32; 9; 10; 12288]%N (ManualInput.mount Store.setup_done)))
  = true /\
  ManualInput.handleSpeak (lit "c1") (lit "i1")
    (ManualInput.onChange [32; 9; 10; 12288]%N (ManualInput.mount Store.setup_done))
  = ManualInput.onChange [32; 9; 10; 12288]%N (ManualInput.mount Store.setup_done).
Proof.
  split; [reflexivity|].
  exact (proj1 (proj2 (blank_text_is_never_submitted (lit "c1") (lit "i1")
    (ManualInput.onChange [32; 9; 10; 12288]%N (ManualInput.mount Store.setup_done)))
    eq_refl)).
Defined.


Lemma completed_speak_witness :
  Mutation.is_in_flight 0 (ManualInput.speakMutation ManualInput.speaking) = true /\
  ManualInput.text
    (ManualInput.speak_settled 0 (Mutation.Resolved ManualInput.failed_response) 7
       ManualInput.speaking) = [].
Proof.
  split; [reflexivity|].
  exact (proj1 (completed_speak_empties_the_buffer (lit "c1") (lit "i1") 0
    ManualInput.failed_response 7 ManualInput.speaking eq_refl)).
Defined.

(** ** The conversation orchestrator over its life *)

Section ChatLife.

Import ChatInterface.

Variables (cloneId imageId : jsstr).

(** X18.  The send button is disabled exactly when the input is empty or all
    white space, or the loading flag is up; and with such an input
    [handleSend] changes nothing. *)
Theorem blank_message_is_never_sent (now : jsstr) (s : State) :
  send_disabled s = forallb is_white_space (input s) || Store.isLoading (store s) /\
  (forallb is_white_space (input s) = true ->
   handleSend cloneId imageId now s = s).
Proof.
  split.
  - unfold send_disabled. by rewrite trim_blank.
  - intros H. unfold handleSend. by rewrite trim_blank, H.
Qed.

(** X19.  A send that is accepted appends the user turn (the trimmed input) at
    once, empties the input, raises the loading flag and starts one
    request.  When that request ends, the answer or the error turn comes
    after the user turn, which is never taken back. *)
Theorem user_turn_is_kept
  (now later : jsstr) (data : ChatResponse.t) (s : State) :
  forallb is_white_space (input s) = false ->
  Store.isLoading (store s) = false ->
  let s1 := handleSend cloneId imageId now s in
  let id := Mutation.next_id (sendMessageMutation s) in
  Store.messages (store s1) = Store.messages (store s) ++ [user_turn now s] /\
  input s1 = [] /\
  Store.isLoading (store s1) = true /\
  Mutation.is_in_flight id (sendMessageMutation s1) = true /\
  Store.messages (store (send_settled id Mutation.Rejected later s1))
  = Store.messages (store s) ++ [user_turn now s; error_message later] /\
  Store.messages (store (send_settled id (Mutation.Resolved data) later s1))
  = Store.messages (store s) ++ [user_turn now s; ChatResponse.response data].
Proof.
  intros Hb Hl s1 id. subst s1 id. unfold handleSend.
  rewrite trim_blank, Hb, Hl. simpl.
  destruct s as [st inp cv rec sm]. destruct st. simpl.
  unfold send_settled, Mutation.is_in_flight. simpl. rewrite Nat.eqb_refl. simpl.
  unfold send_onSuccess, user_turn. simpl.
  do 4 (split; [reflexivity|]).
  split; [by rewrite <- app_assoc|].
  repeat destruct (truthy _); simpl; by rewrite <- app_assoc.
Qed.

(** X20.  No event but the clear button takes anything out of the transcript:
    what was there stays, as a prefix. *)
Theorem transcript_only_grows (s : State) (e : Event) :
  e <> ClickClear ->
  Store.messages (store s) `prefix_of` Store.messages (store (step cloneId imageId s e)).
Proof.
  intros He. destruct e as [v|now|now| |id o now]; simpl; [| | |done|].
  - by destruct (input_disabled s).
  - destruct (input_disabled s); [done|]. unfold handleSend.
    destruct (_ || _); [done|].
    destruct s as [st inp cv rec sm]. destruct st. simpl. by apply prefix_app_r.
  - destruct (send_disabled s); [done|]. unfold handleSend.
    destruct (_ || _); [done|].
    destruct s as [st inp cv rec sm]. destruct st. simpl. by apply prefix_app_r.
  - unfold send_settled.
    destruct (Mutation.is_in_flight id (sendMessageMutation s)); [|done].
    destruct s as [st inp cv rec sm]. destruct st.
    destruct o as [data|]; [unfold send_onSuccess; repeat destruct (truthy _)|];
      simpl; by apply prefix_app_r.
Qed.

(** X21.  The conversation id of an answer is echoed by the next send, and after
    a clear the next send carries none. *)
Theorem conversation_id_is_echoed
  (id : nat) (now later : jsstr) (data : ChatResponse.t)
  (c : N) (d v : jsstr) (s : State) :
  Mutation.is_in_flight id (sendMessageMutation s) = true ->
  ChatResponse.conversation_id data = c :: d ->
  forallb is_white_space v = false ->
  newest_request
    (handleSend cloneId imageId later
       (setInput v (send_settled id (Mutation.Resolved data) now s)))
  = Some (ChatRequest.mk (trim v) cloneId imageId (Some (c :: d)) (Some true)) /\
  newest_request
    (handleSend cloneId imageId later
       (setInput v (clearChat (send_settled id (Mutation.Resolved data) now s))))
  = Some (ChatRequest.mk (trim v) cloneId imageId None (Some true)).
Proof.
  intros Hf Hc Hv. unfold send_settled. rewrite Hf.
  unfold handleSend, send_onSuccess.
  destruct s as [st inp cv rec sm]. destruct st.
  rewrite Hc.
  destruct (truthy (ChatMessage.video_url (ChatResponse.response data)));
    [|destruct (truthy (ChatMessage.audio_url (ChatResponse.response data)))];
    simpl; rewrite !trim_blank, !Hv; simpl; done.
Qed.

Lemma handleSend_requests_ok (now : jsstr) (s : State) :
  Forall (fun e => chat_request_ok cloneId imageId (snd e))
         (Mutation.in_flight (sendMessageMutation s)) ->
  Forall (fun e => chat_request_ok cloneId imageId (snd e))
         (Mutation.in_flight (sendMessageMutation (handleSend cloneId imageId now s))).
Proof.
  intros H. unfold handleSend.
  destruct (negb (str_truthy (trim (input s)))) eqn:E; simpl; [done|].
  destruct (Store.isLoading (store s)); [done|].
  apply negb_false_iff in E. simpl. constructor; [|exact H].
  split; [by apply trim_trimmed_nonblank|]. repeat split.
  simpl. by destruct (conversationId s) as [[|? ?]|].
Qed.

(** X22.  Every request the component has in flight, along every run, carries a
    message that is not empty and neither begins nor ends with white space,
    the identifiers given as props, the request for a video, and a
    conversation id that is absent or not empty. *)
Theorem chat_requests_are_well_formed (es : list Event) (st : Store.AppState) :
  Forall (fun e => chat_request_ok cloneId imageId (snd e))
    (Mutation.in_flight (sendMessageMutation (run cloneId imageId (mount st) es))).
Proof.
  unfold run.
  assert (H : Forall (fun e => chat_request_ok cloneId imageId (snd e))
                (Mutation.in_flight (sendMessageMutation (mount st))))
    by constructor.
  revert H. generalize (mount st).
  induction es as [|e es IH]; intros s H; simpl; [done|].
  apply IH. destruct e as [v|now|now| |id o now]; simpl.
  - by destruct (input_disabled s).
  - destruct (input_disabled s); [done|]. by apply handleSend_requests_ok.
  - destruct (send_disabled s); [done|]. by apply handleSend_requests_ok.
  - by destruct (clear_shown s).
  - unfold send_settled.
    destruct (Mutation.is_in_flight id (sendMessageMutation s)); [|done].
    assert (G : Forall (fun e => chat_request_ok cloneId imageId (snd e))
                  (Mutation.in_flight (Mutation.settle id (sendMessageMutation s))))
      by by apply Forall_settle.
    destruct o as [data|]; [|exact G].
    unfold send_onSuccess. by repeat destruct (truthy _).
Qed.




(** X24.  The end of a voice request that succeeds: the user turn (the
    transcription, or the placeholder when there is none or it is empty)
    and then the answer are appended, the conversation id of the response
    is adopted, the loading flag is cleared, and the audio reference is
    never written, whatever the answer carries. *)
Theorem voice_reply_appends_both_turns
  (r : VoiceResponse.t) (now : jsstr) (s : State) :
  Store.messages (store (voice_resolved r now s))
  = Store.messages (store s)
    ++ [ ChatMessage.mk user
           (match VoiceResponse.transcription r with
            | Some (c :: t) => c :: t
            | _ => voice_placeholder
            end) now None None;
         VoiceResponse.response r ] /\
  conversationId (voice_resolved r now s) = VoiceResponse.conversation_id r /\
  Store.isLoading (store (voice_resolved r now s)) = false /\
  Store.currentAudioUrl (store (voice_resolved r now s))
  = Store.currentAudioUrl (store s) /\
  Store.currentVideoUrl (store (voice_resolved r now s))
  = (if truthy (ChatMessage.video_url (VoiceResponse.response r))
     then ChatMessage.video_url (VoiceResponse.response r)
     else Store.currentVideoUrl (store s)).
Proof.
  destruct s as [st inp cv rec sm]. destruct st. unfold voice_resolved.
  destruct (truthy (ChatMessage.video_url (VoiceResponse.response r)));
    destruct (VoiceResponse.transcription r) as [[|c t]|]; simpl;
    repeat split; by rewrite <- app_assoc.
Qed.

End ChatLife.

Lemma blank_message_witness :
  forallb is_white_space
    (ChatInterface.input
       (ChatInterface.setInput [32; 32]%N (ChatInterface.mount Store.setup_done))) = true /\
  ChatInterface.handleSend (lit "c1") (lit "i1") (lit "now")
    (ChatInterface.setInput [32; 32]%N (ChatInterface.mount Store.setup_done))
  = ChatInterface.setInput [32; 32]%N (ChatInterface.mount Store.setup_done).
Proof.
  split; [reflexivity|].
  exact (proj2 (blank_message_is_never_sent (lit "c1") (lit "i1") (lit "now")
    (ChatInterface.setInput [32; 32]%N (ChatInterface.mount Store.setup_done)))
    eq_refl).
Defined.

Lemma user_turn_is_kept_witness :
  let s := ChatInterface.setInput (lit " hello ") (ChatInterface.mount Store.setup_done) in
  forallb is_white_space (ChatInterface.input s) = false /\
  Store.isLoading (ChatInterface.store s) = false /\
  Store.messages
    (ChatInterface.store
       (ChatInterface.send_settled
          (Mutation.next_id (ChatInterface.sendMessageMutation s))
          Mutation.Rejected (lit "later")
          (ChatInterface.handleSend (lit "c1") (lit "i1") (lit "now") s)))
  = Store.messages (ChatInterface.store s)
    ++ [ ChatMessage.mk user (trim (ChatInterface.input s)) (lit "now") None None;
         ChatInterface.error_message (lit "later") ].
Proof.
  intros s. split; [reflexivity|]. split; [reflexivity|].
  pose proof (user_turn_is_kept (lit "c1") (lit "i1") (lit "now") (lit "later")
    (ChatResponse.mk (lit "cv1") (ChatInterface.error_message (lit "x"))
       (ChatInterface.error_message (lit "x")) None completed)
    s eq_refl eq_refl) as (_ & _ & _ & _ & H & _).
  exact H.
Defined.

Lemma transcript_only_grows_witness :
  ChatInterface.ClickSend (lit "now") <> ChatInterface.ClickClear /\
  Store.messages (ChatInterface.store ChatInterface.sending)
    `prefix_of`
  Store.messages
    (ChatInterface.store
       (ChatInterface.step (lit "c1") (lit "i1") ChatInterface.sending
          (ChatInterface.ClickSend (lit "now")))).
Proof.
  assert (H : ChatInterface.ClickSend (lit "now") <> ChatInterface.ClickClear)
    by discriminate.
  split; [exact H|].
  exact (transcript_only_grows (lit "c1") (lit "i1") ChatInterface.sending
           (ChatInterface.ClickSend (lit "now")) H).
Defined.

Lemma conversation_id_is_echoed_witness :
  let data :=
    ChatResponse.mk (lit "cv1") (ChatInterface.error_message (lit "x"))
      (ChatMessage.mk assistant (lit "hi") (lit "t") None None) None completed in
  Mutation.is_in_flight 0 (ChatInterface.sendMessageMutation ChatInterface.sending)
    = true /\
  ChatResponse.conversation_id data = 99%N :: lit "v1" /\
  forallb is_white_space (lit "next") = false /\
  ChatInterface.newest_request
    (ChatInterface.handleSend (lit "c1") (lit "i1") (lit "later")
       (ChatInterface.setInput (lit "next")
          (ChatInterface.send_settled 0 (Mutation.Resolved data) (lit "now")
             ChatInterface.sending)))
  = Some (ChatRequest.mk (trim (lit "next")) (lit "c1") (lit "i1")
            (Some (99%N :: lit "v1")) (Some true)).
Proof.
  intros data.
  split; [reflexivity|]. split; [reflexivity|]. split; [reflexivity|].
  exact (proj1 (conversation_id_is_echoed (lit "c1") (lit "i1") 0 (lit "now")
    (lit "later") data 99%N (lit "v1") (lit "next") ChatInterface.sending
    eq_refl eq_refl eq_refl)).
Defined.


(** ** What the avatar container shows *)

Section Stage.

Import AvatarDisplay.

Lemma getPreviewUrl_truthy (id : jsstr) : truthy (Some (getPreviewUrl id)) = true.
Proof. reflexivity. Qed.

(** X25.  The container shows the video exactly when a non-empty video reference
    is set; otherwise the still image, from the preview URL of the image id,
    exactly when a non-empty image id is set; and the placeholder exactly
    when there is neither.  The progress bar and the controls are there
    exactly when the video is. *)
Theorem stage_shows_video_image_or_placeholder (s : Store.AppState) :
  (forall src,
     stage s = Video src <-> Store.currentVideoUrl s = Some src /\ src <> []) /\
  (forall src,
     stage s = StaticImage src <->
     truthy (Store.currentVideoUrl s) = false /\
     exists id, Store.imageId s = Some id /\ id <> [] /\ src = getPreviewUrl id) /\
  (stage s = Placeholder <->
   truthy (Store.currentVideoUrl s) = false /\ truthy (Store.imageId s) = false) /\
  (controls_shown s = true <-> exists src, stage s = Video src).
Proof.
  unfold stage, imagePreviewUrl, controls_shown.
  destruct (Store.currentVideoUrl s) as [[|c u]|];
    destruct (Store.imageId s) as [[|a i]|]; simpl;
    (split; [|split; [|split]]); try intros src;
    (split;
     [ intros H; try discriminate H; try (injection H as <-);
       repeat split; try discriminate; eauto
     | try (intros [H1 H2]); try (intros [src' H']); try discriminate;
       try (destruct H2 as (id & Hi & Hn & ->)); try congruence; eauto ]).
Qed.

End Stage.
